(** * Relational Pulp: the models of [pulp/models.py]

  A shallow embedding of the Django models of the repository and of the
  functions attached to them: the generic key/value mapping, the content
  unit identity (key digest, save, cast), the file checksums and the
  repository membership signals.

  Python [str] is embedded as [string], one [ascii] for each code point
  (the code points below 256), and [bytes] as [list byte].  Functions
  that can raise return [except]; functions that mutate [self] return the
  new [self] next to the outcome, also when they raise. *)

From Stdlib Require Import List String Ascii Bool Arith ZArith Lia.
From Stdlib.Strings Require Import Byte.
From Stdlib Require Import DecimalString.
Import ListNotations.
Open Scope string_scope.
Open Scope list_scope.

(** ** Python values, exceptions *)

Module Py.

Inductive exn : Type :=
| DoesNotExist
| MultipleObjectsReturned
| AttributeError
| ValueError
| IntegrityError
| DatabaseError
| Exception (msg : string).

Inductive except (A : Type) : Type :=
| Ok (a : A)
| Raise (e : exn).

Arguments Ok {A} a.
Arguments Raise {A} e.

Definition bind {A B} (c : except A) (k : A -> except B) : except B :=
  match c with
  | Ok a => k a
  | Raise e => Raise e
  end.

(** Plain data a model field can hold.  [VOther] stands for any other
    Python object, kept by the text [str()] gives for it. *)
Inductive pyval : Type :=
| VNone
| VBool (b : bool)
| VInt (z : Z)
| VStr (s : string)
| VOther (shown : string).

(** [str(v)], which is also what ['{}'.format(v)] yields. *)
Definition val_str (v : pyval) : string :=
  match v with
  | VNone => "None"
  | VBool true => "True"
  | VBool false => "False"
  | VInt z => NilZero.string_of_int (Z.to_int z)
  | VStr s => s
  | VOther shown => shown
  end.

(** Truthiness, as used by [if v]. *)
Definition truthy (v : pyval) : bool :=
  match v with
  | VNone => false
  | VBool b => b
  | VInt z => negb (Z.eqb z 0)
  | VStr s => negb (String.eqb s "")
  | VOther _ => true
  end.

End Py.

Export Py.

Declare Scope except_scope.
Delimit Scope except_scope with except.
Notation "x <- c ;; k" := (Py.bind c (fun x => k))
(at level 61, c at next level, right associativity) : except_scope.

(** ** The generic key/value store (Config, Notes, Scratchpad) *)

Module AttributeStore.

(** The three concrete subclasses of [GenericKeyValueStore]; each has a
    table of its own. *)
Inductive Role : Type := Config | Notes | Scratchpad.

(** One row: the automatic integer primary key, [key], [value] and the
    two columns of [GenericModel] naming the owner. *)
Record GenericKeyValueStore : Type := {
  id : nat;
  key : string;
  value : string;
  content_type : string;
  object_id : string
}.

Definition Table : Type := list GenericKeyValueStore.
Definition Database : Type := Role -> Table.

(** The manager a [GenericRelation] gives on an owner instance, as in
    [r.notes]: every query is restricted to the owner's rows of one
    table, [create] fills the owner columns in. *)
Record GenericKeyValueManager : Type := {
  model : Role;
  owner_type : string;
  owner_id : string
}.

Definition role_eqb (a b : Role) : bool :=
  match a, b with
  | Config, Config | Notes, Notes | Scratchpad, Scratchpad => true
  | _, _ => false
  end.

Definition write_table (db : Database) (r : Role) (t : Table) : Database :=
  fun r' => if role_eqb r' r then t else db r'.

Definition owned_by (m : GenericKeyValueManager) (row : GenericKeyValueStore) : bool :=
  (content_type row =? owner_type m) && (object_id row =? owner_id m).

Definition has_key (k : string) (row : GenericKeyValueStore) : bool :=
  key row =? k.

Definition selects (m : GenericKeyValueManager) (k : string)
           (row : GenericKeyValueStore) : bool :=
  owned_by m row && has_key k row.

(** [manager.all()] and [manager.filter(key=key)]. *)
Definition manager_all (m : GenericKeyValueManager) (db : Database) : Table :=
  filter (owned_by m) (db (model m)).

Definition manager_filter (m : GenericKeyValueManager) (k : string)
           (db : Database) : Table :=
  filter (selects m k) (db (model m)).

(** [manager.get(key=key)]: exactly one row, or an exception. *)
Definition manager_get (m : GenericKeyValueManager) (k : string)
           (db : Database) : except GenericKeyValueStore :=
  match manager_filter m k db with
  | [] => Raise DoesNotExist
  | [row] => Ok row
  | _ :: _ :: _ => Raise MultipleObjectsReturned
  end.

Definition fresh_id (t : Table) : nat := S (list_max (map id t)).

Definition same_entry (a b : GenericKeyValueStore) : bool :=
  (key a =? key b) && (content_type a =? content_type b)
  && (object_id a =? object_id b).

Definition new_row (m : GenericKeyValueManager) (k v : string) (t : Table) :=
  {| id := fresh_id t; key := k; value := v;
     content_type := owner_type m; object_id := owner_id m |}.

(** [manager.create(key=key, value=value)]: an INSERT under the
    [unique_together] constraint of the table. *)
Definition manager_create (m : GenericKeyValueManager) (k v : string)
           (db : Database) : except Database :=
  let t := db (model m) in
  let row := new_row m k v t in
  if existsb (same_entry row) t then Raise IntegrityError
  else Ok (write_table db (model m) (t ++ [row])).

(** [item.save()] of a row that was read from the table: UPDATE by
    primary key, INSERT when no row has that key. *)
Definition item_save (r : Role) (item : GenericKeyValueStore)
           (db : Database) : Database :=
  let t := db r in
  if existsb (fun row => id row =? id item)%nat t
  then write_table db r
         (map (fun row => if (id row =? id item)%nat then item else row) t)
  else write_table db r (t ++ [item]).

Definition set_value (item : GenericKeyValueStore) (v : string) :=
  {| id := id item; key := key item; value := v;
     content_type := content_type item; object_id := object_id item |}.

(** [GenericKeyValueMutableMapping.__getitem__] *)
Definition __getitem__ (m : GenericKeyValueManager) (k : string)
           (db : Database) : except string :=
  (item <- manager_get m k db ;; Ok (value item))%except.

(** What the text field [value] sends to its column: [None] stays NULL,
    every other value is sent as [str(value)]. *)
Definition text_column (v : pyval) : option string :=
  match v with
  | VNone => None
  | _ => Some (val_str v)
  end.

(** [GenericKeyValueMutableMapping.__setitem__].  The column of [value]
    is not nullable: writing NULL, by [item.save()] or by [create], raises
    [IntegrityError], which the [except] clause does not catch. *)
Definition __setitem__ (m : GenericKeyValueManager) (k : string) (v : pyval)
           (db : Database) : except Database :=
  match manager_get m k db with
  | Ok item =>
      match text_column v with
      | Some text => Ok (item_save (model m) (set_value item text) db)
      | None => Raise IntegrityError
      end
  | Raise DoesNotExist =>
      match text_column v with
      | Some text => manager_create m k text db
      | None => Raise IntegrityError
      end
  | Raise e => Raise e
  end.

(** [GenericKeyValueMutableMapping.__delitem__] *)
Definition __delitem__ (m : GenericKeyValueManager) (k : string)
           (db : Database) : Database :=
  write_table db (model m)
    (filter (fun row => negb (selects m k row)) (db (model m))).

(** [__iter__] and [__len__] *)
Definition __iter__ (m : GenericKeyValueManager) (db : Database) : list string :=
  map key (manager_all m db).

Definition __len__ (m : GenericKeyValueManager) (db : Database) : nat :=
  List.length (manager_all m db).

(** The constraints the table declares: the primary key and
    [unique_together = ('key', 'content_type', 'object_id')]. *)
Definition entry (row : GenericKeyValueStore) : string * string * string :=
  (key row, content_type row, object_id row).

Definition constraints (t : Table) : Prop :=
  NoDup (map id t) /\ NoDup (map entry t).

(** A small table used in the examples. *)
Definition notes_of_demo : GenericKeyValueManager :=
  {| model := Notes; owner_type := "repository"; owner_id := "r1" |}.

Definition demo_notes : Database :=
  fun r => match r with
           | Notes => [ {| id := 1; key := "k"; value := "old";
                           content_type := "repository"; object_id := "r1" |};
                        {| id := 2; key := "k"; value := "other";
                           content_type := "repository"; object_id := "r2" |} ]
           | _ => []
           end.

End AttributeStore.


(** ** hashlib *)

Module Hashlib.

(** [hashlib.algorithms_guaranteed] of Python 3. *)
Definition algorithms_guaranteed : list string :=
  ["md5"; "sha1"; "sha224"; "sha256"; "sha384"; "sha512";
   "blake2b"; "blake2s"; "sha3_224"; "sha3_256"; "sha3_384"; "sha3_512";
   "shake_128"; "shake_256"].

(** A hash object: the algorithm and the bytes fed to it so far.  Feeding
    data in pieces is feeding their concatenation. *)
Record hasher : Type := {
  algorithm : string;
  fed : list byte
}.

Definition new (algo : string) : hasher := {| algorithm := algo; fed := [] |}.

Definition update (h : hasher) (data : list byte) : hasher :=
  {| algorithm := algorithm h; fed := fed h ++ data |}.

Section Digest.

(** The hash functions themselves: the hexadecimal digest a named
    algorithm gives for a byte string. *)
Variable digest_hex : string -> list byte -> string.

Definition hexdigest (h : hasher) : string := digest_hex (algorithm h) (fed h).

End Digest.

(** The strings of a list, one after the other. *)
Definition join_all (l : list string) : string := fold_right append "" l.

(** [s.encode('utf8')]: one byte for a code point below 128, two bytes
    for the others. *)
Definition utf8_char (c : ascii) : list byte :=
  let n := nat_of_ascii c in
  if (n <? 128)%nat then [byte_of_ascii c]
  else [byte_of_ascii (ascii_of_nat (192 + n / 64));
        byte_of_ascii (ascii_of_nat (128 + n mod 64))].

Definition encode_utf8 (s : string) : list byte :=
  flat_map utf8_char (list_ascii_of_string s).

(** A stand-in hash for the examples: the algorithm name followed by
    the input itself, so that different inputs give different digests. *)
Definition toy_digest (algo : string) (data : list byte) : string :=
  (algo ++ ":" ++ string_of_list_byte data)%string.




End Hashlib.

(** ** Files of a content unit and their checksums *)

Module Files.
Import Hashlib.

(** [Checksum = namedtuple('Checksum', ('algorithm', 'digest'))] *)
Record Checksum : Type := {
  algorithm : string;
  digest : string
}.

(** What a file object hands out: a stream opened as text yields [str]
    lines, one opened as bytes yields [bytes] lines. *)
Inductive stream : Type :=
| TextStream (text : string)
| ByteStream (data : list byte).

Inductive line : Type :=
| StrLine (s : string)
| BytesLine (b : list byte).

(** The [FieldFile] in [content]: its name, the underlying file and the
    size it reports. *)
Record FieldFile : Type := {
  name : string;
  file : stream;
  size : Z
}.

Record ContentUnitFile : Type := {
  uuid : string;
  unit : string;
  content : FieldFile;
  downloaded : bool;
  file_size : option Z;
  md5 : option string;
  sha1 : option string;
  sha224 : option string;
  sha256 : option string;
  sha384 : option string;
  sha512 : option string
}.

(** [self._meta.fields], by name, in declaration order. *)
Definition meta_fields : list string :=
  ["uuid"; "unit"; "content"; "downloaded"; "file_size";
   "md5"; "sha1"; "sha224"; "sha256"; "sha384"; "sha512"].

(** [getattr(self, field_name)] and [setattr(self, algo, value)] on the
    hash fields. *)
Definition get_hash_field (self : ContentUnitFile) (field_name : string)
  : option string :=
  if field_name =? "md5" then md5 self
  else if field_name =? "sha1" then sha1 self
  else if field_name =? "sha224" then sha224 self
  else if field_name =? "sha256" then sha256 self
  else if field_name =? "sha384" then sha384 self
  else if field_name =? "sha512" then sha512 self
  else None.

Definition with_hashes (self : ContentUnitFile)
           (a b c d e f : option string) : ContentUnitFile :=
  {| uuid := uuid self; unit := unit self; content := content self;
     downloaded := downloaded self; file_size := file_size self;
     md5 := a; sha1 := b; sha224 := c; sha256 := d; sha384 := e; sha512 := f |}.

Definition set_hash_field (self : ContentUnitFile) (algo : string)
           (v : option string) : ContentUnitFile :=
  let w := with_hashes self in
  if algo =? "md5" then
    w v (sha1 self) (sha224 self) (sha256 self) (sha384 self) (sha512 self)
  else if algo =? "sha1" then
    w (md5 self) v (sha224 self) (sha256 self) (sha384 self) (sha512 self)
  else if algo =? "sha224" then
    w (md5 self) (sha1 self) v (sha256 self) (sha384 self) (sha512 self)
  else if algo =? "sha256" then
    w (md5 self) (sha1 self) (sha224 self) v (sha384 self) (sha512 self)
  else if algo =? "sha384" then
    w (md5 self) (sha1 self) (sha224 self) (sha256 self) v (sha512 self)
  else if algo =? "sha512" then
    w (md5 self) (sha1 self) (sha224 self) (sha256 self) (sha384 self) v
  else self.

Definition set_file_size (self : ContentUnitFile) (n : Z) : ContentUnitFile :=
  {| uuid := uuid self; unit := unit self; content := content self;
     downloaded := downloaded self; file_size := Some n;
     md5 := md5 self; sha1 := sha1 self; sha224 := sha224 self;
     sha256 := sha256 self; sha384 := sha384 self; sha512 := sha512 self |}.

(** [_hash_field_generator] *)
Definition _hash_field_generator : list string :=
  filter (fun field_name => existsb (String.eqb field_name) algorithms_guaranteed)
         meta_fields.

(** [if field_value]: neither [None] nor the empty string. *)
Definition field_truthy (v : option string) : bool :=
  match v with
  | Some s => negb (s =? "")
  | None => false
  end.

(** [_digest_generator] *)
Fixpoint digests_of (self : ContentUnitFile) (fields : list string)
  : list Checksum :=
  match fields with
  | [] => []
  | field_name :: rest =>
      match get_hash_field self field_name with
      | Some field_value =>
          if field_truthy (Some field_value)
          then {| algorithm := field_name; digest := field_value |}
                 :: digests_of self rest
          else digests_of self rest
      | None => digests_of self rest
      end
  end.

Definition _digest_generator (self : ContentUnitFile) : list Checksum :=
  digests_of self _hash_field_generator.

(** [sorted(xs, key=key, reverse=True)]: a stable sort, largest key
    first, items of equal key in the order they came. *)
Fixpoint insert_desc {A} (key : A -> nat) (x : A) (sorted : list A) : list A :=
  match sorted with
  | [] => [x]
  | y :: rest =>
      if (key y <=? key x)%nat then x :: y :: rest
      else y :: insert_desc key x rest
  end.

Fixpoint sorted_reverse {A} (key : A -> nat) (xs : list A) : list A :=
  match xs with
  | [] => []
  | x :: rest => insert_desc key x (sorted_reverse key rest)
  end.

(** [best_checksum]; the [IndexError] of [[0]] on an empty list becomes
    [None]. *)
Definition best_checksum (self : ContentUnitFile) : option Checksum :=
  match sorted_reverse (fun c => String.length (digest c)) (_digest_generator self) with
  | c :: _ => Some c
  | [] => None
  end.

(** The first item of the largest key, written directly. *)
Fixpoint first_longest {A} (key : A -> nat) (xs : list A) : option A :=
  match xs with
  | [] => None
  | x :: rest =>
      match first_longest key rest with
      | Some y => if (key y <=? key x)%nat then Some x else Some y
      | None => Some x
      end
  end.

(** [readlines()]: the content cut after each newline. *)
Definition newline : ascii := "010"%char.

Fixpoint readlines_text (s : string) : list string :=
  match s with
  | EmptyString => []
  | String c rest =>
      if Ascii.eqb c newline then String c EmptyString :: readlines_text rest
      else match readlines_text rest with
           | [] => [String c EmptyString]
           | ln :: lns => String c ln :: lns
           end
  end.

Fixpoint readlines_bytes (data : list byte) : list (list byte) :=
  match data with
  | [] => []
  | c :: rest =>
      if Byte.eqb c x0a then [c] :: readlines_bytes rest
      else match readlines_bytes rest with
           | [] => [[c]]
           | ln :: lns => (c :: ln) :: lns
           end
  end.

Definition readlines (f : FieldFile) : list line :=
  match file f with
  | TextStream text => map StrLine (readlines_text text)
  | ByteStream data => map BytesLine (readlines_bytes data)
  end.

(** [line.encode('utf8')]: [bytes] has no [encode]. *)
Definition encode (l : line) : except (list byte) :=
  match l with
  | StrLine s => Ok (encode_utf8 s)
  | BytesLine _ => Raise AttributeError
  end.

(** The dictionary [hashers], in the order of the hash fields. *)
Definition new_hashers : list (string * hasher) :=
  map (fun algo => (algo, Hashlib.new algo)) _hash_field_generator.

(** [for hasher in hashers.values(): hasher.update(line.encode('utf8'))] *)
Fixpoint feed_line (l : line) (hashers : list (string * hasher))
  : except (list (string * hasher)) :=
  match hashers with
  | [] => Ok []
  | (algo, h) :: rest =>
      (data <- encode l ;;
       rest' <- feed_line l rest ;;
       Ok ((algo, update h data) :: rest'))%except
  end.

(** [for line in self.content.readlines(): ...] *)
Fixpoint feed_lines (lines : list line) (hashers : list (string * hasher))
  : except (list (string * hasher)) :=
  match lines with
  | [] => Ok hashers
  | l :: rest =>
      (hashers' <- feed_line l hashers ;; feed_lines rest hashers')%except
  end.

(** Every hasher of the dictionary fed with the same data. *)
Definition feed_each (data : list byte) (hashers : list (string * hasher)) :=
  map (fun ah => (fst ah, update (snd ah) data)) hashers.

Section Save.

Variable digest_hex : string -> list byte -> string.

(** The parent [save], which writes the row: the store and what it does
    with the row are the persistence layer's. *)
Variable Store : Type.
Variable super_save : ContentUnitFile -> Store -> except Store.

(** [for algo, hasher in hashers.items(): setattr(self, algo, hasher.hexdigest())] *)
Fixpoint set_digests (self : ContentUnitFile) (hashers : list (string * hasher))
  : ContentUnitFile :=
  match hashers with
  | [] => self
  | (algo, h) :: rest =>
      set_digests (set_hash_field self algo (Some (hexdigest digest_hex h))) rest
  end.

(** [if self.content]: a [FieldFile] is true when it has a name. *)
Definition content_truthy (f : FieldFile) : bool := negb (name f =? "").

(** [ContentUnitFile.save]: the outcome, and [self] as it is handed to the
    parent [save]; what the parent [save] does to the instance when it
    commits the file is the persistence layer's. *)
Definition save (self : ContentUnitFile) (st : Store)
  : except Store * ContentUnitFile :=
  if content_truthy (content self) then
    match feed_lines (readlines (content self)) new_hashers with
    | Ok hashers =>
        let self1 := set_digests self hashers in
        let self2 := set_file_size self1 (size (content self1)) in
        (super_save self2 st, self2)
    | Raise e => (Raise e, self)
    end
  else (super_save self st, self).

End Save.

(** [dict(pairs)]: a later pair with a key already met replaces the
    value in place. *)
Fixpoint dict_set (k v : string) (d : list (string * string))
  : list (string * string) :=
  match d with
  | [] => [(k, v)]
  | (k', v') :: rest =>
      if k' =? k then (k, v) :: rest else (k', v') :: dict_set k v rest
  end.

Definition dict_of (pairs : list (string * string)) : list (string * string) :=
  fold_left (fun d kv => dict_set (fst kv) (snd kv) d) pairs [].

Fixpoint dict_get (k : string) (d : list (string * string)) : option string :=
  match d with
  | [] => None
  | (k', v) :: rest => if k' =? k then Some v else dict_get k rest
  end.

(** The property [digests]: [dict(self._digest_generator())]. *)
Definition digests (self : ContentUnitFile) : list (string * string) :=
  dict_of (map (fun c => (algorithm c, digest c)) (_digest_generator self)).

(** The bytes of the content: the UTF-8 form of a text, the data of a
    byte stream. *)
Definition content_bytes (f : FieldFile) : list byte :=
  match file f with
  | TextStream text => encode_utf8 text
  | ByteStream data => data
  end.

(** Records used in the examples. *)
Definition blank_file (c : FieldFile) : ContentUnitFile :=
  {| uuid := "f1"; unit := "u1"; content := c; downloaded := false;
     file_size := None; md5 := None; sha1 := None; sha224 := None;
     sha256 := None; sha384 := None; sha512 := None |}.

Definition text_file : ContentUnitFile :=
  blank_file {| name := "notes.txt"; file := TextStream "ab
cd"; size := 5 |}.

Definition binary_file : ContentUnitFile :=
  blank_file {| name := "pkg.rpm"; file := ByteStream [x61; x0a; xff]; size := 3 |}.

Definition two_digests : ContentUnitFile :=
  set_hash_field
    (set_hash_field (blank_file {| name := ""; file := TextStream ""; size := 0 |})
       "md5" (Some "900150983cd24fb0d6963f7d28e17f72"))
    "sha256"
    (Some "ba7816bf8f01cfea414140de5dae2223b00361a396177a9cb410ff61f20015ad").

Definition empty_binary_file : ContentUnitFile :=
  blank_file {| name := "empty.bin"; file := ByteStream []; size := 0 |}.

(** A persistence layer that accepts every row. *)
Definition accept_row (f : ContentUnitFile) (st : list ContentUnitFile)
  : except (list ContentUnitFile) := Ok (f :: st).

End Files.

(** ** Content units: identity, save and cast *)

Module Identity.
Import Hashlib.

(** A model class, as far as the code looks at it: [_meta.model_name]
    and the class attribute [KEY_FIELDS]. *)
Record ModelClass : Type := {
  model_name : string;
  KEY_FIELDS : list string
}.

(** [ContentUnit] itself. *)
Definition ContentUnit_class : ModelClass :=
  {| model_name := "contentunit"; KEY_FIELDS := ["pk"] |}.

(** An instance of [ContentUnit] or of a subclass: [type(self)], the
    fields of the master model and the fields the subclass declares. *)
Record ContentUnit : Type := {
  class_of : ModelClass;
  uuid : string;
  content_type : string;
  key_digest : string;
  detail : list (string * pyval)
}.

(** What an attribute or a call can hand back: plain data or a unit. *)
Inductive pyobj : Type :=
| Val (v : pyval)
| Unit (u : ContentUnit).

(** The master table and the table of each subclass, whose rows point to
    their master row by [contentunit_ptr]. *)
Record BaseRow : Type := {
  row_uuid : string;
  row_content_type : string;
  row_key_digest : string
}.

Record DetailRow : Type := {
  contentunit_ptr : string;
  columns : list (string * pyval)
}.

Record Database : Type := {
  contentunit_rows : list BaseRow;
  detail_rows : string -> list DetailRow
}.

Fixpoint assoc {V} (k : string) (l : list (string * V)) : option V :=
  match l with
  | [] => None
  | (k', v) :: rest => if k' =? k then Some v else assoc k rest
  end.

Definition with_content_type (self : ContentUnit) (ct : string) : ContentUnit :=
  {| class_of := class_of self; uuid := uuid self; content_type := ct;
     key_digest := key_digest self; detail := detail self |}.

Definition with_key_digest (self : ContentUnit) (d : string) : ContentUnit :=
  {| class_of := class_of self; uuid := uuid self;
     content_type := content_type self; key_digest := d;
     detail := detail self |}.

Section Runtime.

(** The hash functions, see [Hashlib]. *)
Variable digest_hex : string -> list byte -> string.

(** The subclasses of [ContentUnit] that are installed.  Each gives the
    master model a reverse one-to-one accessor named by its
    [model_name]. *)
Variable subclasses : list ModelClass.

(** The attributes of an instance that are neither model fields nor these
    accessors: methods, properties, managers, accessors that other models
    add. *)
Variable class_attr : ContentUnit -> string -> option pyobj.

(** [str(u)] of a unit that is used as a value. *)
Variable unit_str : ContentUnit -> string.

(** Whether [collections.namedtuple] accepts a list of field names. *)
Variable namedtuple_accepts : list string -> bool.

Definition py_str (o : pyobj) : string :=
  match o with
  | Val v => val_str v
  | Unit u => unit_str u
  end.

(** The reverse one-to-one accessor of subclass [c]: the instance of [c]
    stored under the primary key of [self], or
    [RelatedObjectDoesNotExist], which is an [AttributeError]. *)
Definition related_object (db : Database) (c : ModelClass) (self : ContentUnit)
  : except pyobj :=
  match find (fun r => contentunit_ptr r =? uuid self) (detail_rows db (model_name c)),
        find (fun r => row_uuid r =? uuid self) (contentunit_rows db) with
  | Some d, Some b =>
      Ok (Unit {| class_of := c; uuid := row_uuid b;
                  content_type := row_content_type b;
                  key_digest := row_key_digest b;
                  detail := columns d |})
  | _, _ => Raise AttributeError
  end.

(** [getattr(self, name)] *)
Definition getattr (db : Database) (self : ContentUnit) (name : string)
  : except pyobj :=
  if (name =? "pk") || (name =? "uuid") then Ok (Val (VStr (uuid self)))
  else if name =? "content_type" then Ok (Val (VStr (content_type self)))
  else if name =? "key_digest" then Ok (Val (VStr (key_digest self)))
  else match assoc name (detail self) with
       | Some v => Ok (Val v)
       | None =>
           match class_attr self name with
           | Some o => Ok o
           | None =>
               match find (fun c => model_name c =? name) subclasses with
               | Some c => related_object db c self
               | None => Raise AttributeError
               end
           end
       end.

(** [_get_content_type] *)
Definition _get_content_type (self : ContentUnit) : string :=
  model_name (class_of self).

(** [ContentUnit.cast] *)
Definition cast (db : Database) (self : ContentUnit) : except pyobj :=
  if _get_content_type self =? content_type self then Ok (Unit self)
  else match getattr db self (content_type self) with
       | Raise AttributeError => Ok (Unit self)
       | outcome => outcome
       end.

(** [o.cast()] on whatever a cast returned: only units have the method. *)
Definition cast_again (db : Database) (o : pyobj) : except pyobj :=
  match o with
  | Unit u => cast db u
  | Val _ => Raise AttributeError
  end.

(** [(getattr(obj, field) for field in fields)], consumed in order. *)
Fixpoint getattrs (db : Database) (obj : ContentUnit) (fields : list string)
  : except (list pyobj) :=
  match fields with
  | [] => Ok []
  | field :: rest =>
      (v <- getattr db obj field ;;
       vs <- getattrs db obj rest ;;
       Ok (v :: vs))%except
  end.

(** [key_tuple]: the named tuple of the cast object's key fields, kept as
    the list of its (name, value) pairs.  [KEY_TUPLE] makes the tuple
    type from [KEY_FIELDS] of the class and caches it by class. *)
Definition key_tuple (db : Database) (self : ContentUnit)
  : except (list (string * pyobj)) :=
  (o <- cast db self ;;
   match o with
   | Unit obj =>
       let fields := KEY_FIELDS (class_of obj) in
       if namedtuple_accepts fields then
         (values <- getattrs db obj fields ;; Ok (combine fields values))
       else Raise ValueError
   | Val _ => Raise AttributeError
   end)%except.

(** [key_dict]: [_asdict()] of the tuple, an ordered dictionary. *)
Definition key_dict (db : Database) (self : ContentUnit)
  : except (list (string * pyobj)) :=
  key_tuple db self.

(** ['{}{}'.format(key, value)] and its [encode('utf8')] *)
Definition key_item_text (kv : string * pyobj) : string :=
  (fst kv ++ py_str (snd kv))%string.

Definition key_item_bytes (kv : string * pyobj) : list byte :=
  encode_utf8 (key_item_text kv).

(** A key mapping read by field names and the text of the values. *)
Definition key_dict_text (items : list (string * pyobj)) : list (string * string) :=
  map (fun kv => (fst kv, py_str (snd kv))) items.

(** [hash_key] *)
Definition hash_key (db : Database) (self : ContentUnit)
           (algorithm : option hasher) : except string :=
  let _hash := match algorithm with
               | Some h => h
               | None => Hashlib.new "sha256"
               end in
  (items <- key_dict db self ;;
   Ok (hexdigest digest_hex
         (fold_left (fun h kv => update h (key_item_bytes kv)) items _hash)))%except.

(** The parent [save]: the master row is written under the unique
    constraint on [key_digest], then the row of the subclass. *)
Definition base_row_of (self : ContentUnit) : BaseRow :=
  {| row_uuid := uuid self; row_content_type := content_type self;
     row_key_digest := key_digest self |}.

Definition detail_row_of (self : ContentUnit) : DetailRow :=
  {| contentunit_ptr := uuid self; columns := detail self |}.

Definition digest_taken (self : ContentUnit) (rows : list BaseRow) : bool :=
  existsb (fun r => (row_key_digest r =? key_digest self)
                    && negb (row_uuid r =? uuid self)) rows.

Definition upsert_base (self : ContentUnit) (rows : list BaseRow) : list BaseRow :=
  if existsb (fun r => row_uuid r =? uuid self) rows
  then map (fun r => if row_uuid r =? uuid self then base_row_of self else r) rows
  else rows ++ [base_row_of self].

Definition upsert_detail (self : ContentUnit) (rows : list DetailRow)
  : list DetailRow :=
  if existsb (fun r => contentunit_ptr r =? uuid self) rows
  then map (fun r => if contentunit_ptr r =? uuid self
                     then detail_row_of self else r) rows
  else rows ++ [detail_row_of self].

Definition Model_save (self : ContentUnit) (db : Database) : except Database :=
  if digest_taken self (contentunit_rows db) then Raise IntegrityError
  else
    Ok {| contentunit_rows := upsert_base self (contentunit_rows db);
          detail_rows :=
            if _get_content_type self =? model_name ContentUnit_class
            then detail_rows db
            else fun table =>
                   if table =? _get_content_type self
                   then upsert_detail self (detail_rows db table)
                   else detail_rows db table |}.

(** [ContentUnit.save]: the outcome and [self] as the call leaves it. *)
Definition save (self : ContentUnit) (db : Database)
  : except Database * ContentUnit :=
  let typed :=
    if content_type self =? "" then
      let self1 := with_content_type self (_get_content_type self) in
      if content_type self1 =? model_name ContentUnit_class
      then (Raise (Exception "Do not save ContentUnit instances directly."), self1)
      else (Ok tt, self1)
    else (Ok tt, self) in
  match typed with
  | (Raise e, self1) => (Raise e, self1)
  | (Ok _, self1) =>
      match hash_key db self1 None with
      | Raise e => (Raise e, self1)
      | Ok d =>
          let self2 := with_key_digest self1 d in
          (Model_save self2 db, self2)
      end
  end.

End Runtime.

(** Data for the examples: two installed subclasses with the same key
    fields, no further attributes, an empty database. *)
Definition rpm_class : ModelClass :=
  {| model_name := "rpm"; KEY_FIELDS := ["name"; "version"] |}.

Definition deb_class : ModelClass :=
  {| model_name := "deb"; KEY_FIELDS := ["name"; "version"] |}.

Definition installed : list ModelClass := [rpm_class; deb_class].

Definition no_class_attr (u : ContentUnit) (name : string) : option pyobj := None.

Definition uuid_str (u : ContentUnit) : string := uuid u.

Definition accept_all (fields : list string) : bool := true.

Definition empty_db : Database :=
  {| contentunit_rows := []; detail_rows := fun _ => [] |}.

Definition rpm_unit : ContentUnit :=
  {| class_of := rpm_class; uuid := "u-rpm"; content_type := "rpm";
     key_digest := "";
     detail := [("name", VStr "pkgA"); ("version", VStr "1")] |}.

Definition deb_unit : ContentUnit :=
  {| class_of := deb_class; uuid := "u-deb"; content_type := "";
     key_digest := "";
     detail := [("name", VStr "pkgA"); ("version", VInt 1)] |}.

(** A master record whose discriminator is no installed type but the
    name of one of its own fields. *)
Definition stray_unit : ContentUnit :=
  {| class_of := ContentUnit_class; uuid := "u-1";
     content_type := "key_digest"; key_digest := "abc"; detail := [] |}.

(** A fresh instance of [ContentUnit] itself. *)
Definition untyped_unit : ContentUnit :=
  {| class_of := ContentUnit_class; uuid := "u-2";
     content_type := ""; key_digest := ""; detail := [] |}.


(** A database that already holds a unit with the key of [rpm_unit]. *)
Definition taken_db : Database :=
  {| contentunit_rows :=
       [ {| row_uuid := "u-old"; row_content_type := "rpm";
            row_key_digest := "sha256:namepkgAversion1" |} ];
     detail_rows :=
       fun table =>
         if table =? "rpm"
         then [ {| contentunit_ptr := "u-old";
                   columns := [("name", VStr "pkgA"); ("version", VStr "1")] |} ]
         else [] |}.

(** Two classes whose key fields differ, and a unit of each. *)
Definition iso_class : ModelClass :=
  {| model_name := "iso"; KEY_FIELDS := ["name"] |}.

Definition img_class : ModelClass :=
  {| model_name := "img"; KEY_FIELDS := ["namex"] |}.

Definition iso_unit : ContentUnit :=
  {| class_of := iso_class; uuid := "u-iso"; content_type := "iso";
     key_digest := ""; detail := [("name", VStr "x1")] |}.

Definition img_unit : ContentUnit :=
  {| class_of := img_class; uuid := "u-img"; content_type := "img";
     key_digest := ""; detail := [("namex", VStr "1")] |}.

End Identity.

(** ** Repositories and their content units *)

Module Membership.

(** A [Repository] instance, and a row of its table. *)
Record Repository : Type := {
  uuid : string;
  slug : string;
  display_name : string;
  description : string;
  last_unit_added : option Z;
  last_unit_removed : option Z
}.

(** A row of the through model; its primary key, a random UUID, is left
    out. *)
Record RepositoryContentUnit : Type := {
  repository : string;
  content_unit : string;
  created : Z;
  updated : Z
}.

(** The tables: repositories, the primary keys of the stored content
    units, and the join table. *)
Record Database : Type := {
  repositories : list Repository;
  content_units : list string;
  memberships : list RepositoryContentUnit
}.

(** The statements sent to the database, in the order they are run. *)
Inductive Statement : Type :=
| UpdateRepository (pk : string) (fields : list string)
| InsertMembership (repo unit : string)
| DeleteMemberships (rows : list RepositoryContentUnit)
| Rollback.

(** The database, the clock read by [timezone.now()], and the statements
    run so far. *)
Record World : Type := {
  db : Database;
  clock : Z;
  statements : list Statement
}.

Definition tick (w : World) : World :=
  {| db := db w; clock := (clock w + 1)%Z; statements := statements w |}.

Definition run (s : Statement) (d : Database) (w : World) : World :=
  {| db := d; clock := clock w; statements := statements w ++ [s] |}.

(** Leaving a [transaction.atomic] block by an exception: the tables go
    back to what they were on entry. *)
Definition rollback (saved : Database) (w : World) : World :=
  run Rollback saved w.

Definition with_last_unit_added (r : Repository) (v : option Z) : Repository :=
  {| uuid := uuid r; slug := slug r; display_name := display_name r;
     description := description r;
     last_unit_added := v; last_unit_removed := last_unit_removed r |}.

Definition with_last_unit_removed (r : Repository) (v : option Z) : Repository :=
  {| uuid := uuid r; slug := slug r; display_name := display_name r;
     description := description r;
     last_unit_added := last_unit_added r; last_unit_removed := v |}.

(** [setattr(repository, k, v)] for the keys of [update]. *)
Definition setattr (r : Repository) (k : string) (v : Z) : Repository :=
  if k =? "last_unit_added" then with_last_unit_added r (Some v)
  else if k =? "last_unit_removed" then with_last_unit_removed r (Some v)
  else r.

(** One column of the stored row takes the value the instance has. *)
Definition write_column (self : Repository) (row : Repository) (field : string)
  : Repository :=
  if field =? "slug" then
    {| uuid := uuid row; slug := slug self; display_name := display_name row;
       description := description row; last_unit_added := last_unit_added row;
       last_unit_removed := last_unit_removed row |}
  else if field =? "display_name" then
    {| uuid := uuid row; slug := slug row; display_name := display_name self;
       description := description row; last_unit_added := last_unit_added row;
       last_unit_removed := last_unit_removed row |}
  else if field =? "description" then
    {| uuid := uuid row; slug := slug row; display_name := display_name row;
       description := description self; last_unit_added := last_unit_added row;
       last_unit_removed := last_unit_removed row |}
  else if field =? "last_unit_added" then
    with_last_unit_added row (last_unit_added self)
  else if field =? "last_unit_removed" then
    with_last_unit_removed row (last_unit_removed self)
  else row.

Definition is_repository (pk : string) (row : Repository) : bool := uuid row =? pk.

(** [repository.save(update_fields=fields)]: an UPDATE of the named
    columns of the row with the primary key of the instance; when no row
    is affected the call raises [DatabaseError]. *)
Definition Repository_save (self : Repository) (update_fields : list string)
           (w : World) : except unit * World :=
  let rows := repositories (db w) in
  let rows' := map (fun row => if is_repository (uuid self) row
                               then fold_left (write_column self) update_fields row
                               else row) rows in
  let w' := run (UpdateRepository (uuid self) update_fields)
                {| repositories := rows'; content_units := content_units (db w);
                   memberships := memberships (db w) |} w in
  if existsb (is_repository (uuid self)) rows then (Ok tt, w')
  else (Raise DatabaseError, w').

(** [units_changed] *)
Definition units_changed (repository : Repository) (action : string) (w : World)
  : except unit * Repository * World :=
  let now := clock w in
  let w := tick w in
  let update :=
    if action =? "save" then Some [("last_unit_added", now)]
    else if action =? "delete" then Some [("last_unit_removed", now)]
    else None in
  match update with
  | None => (Ok tt, repository, w)
  | Some update =>
      let repository' :=
        fold_left (fun r kv => setattr r (fst kv) (snd kv)) update repository in
      let '(outcome, w') := Repository_save repository' (map fst update) w in
      (outcome, repository', w')
  end.

(** [units_saved], connected to [pre_save] of the through model: the
    repository of the instance is the object the row was made with. *)
Definition units_saved (instance_repository : Repository) (w : World)
  : except unit * Repository * World :=
  units_changed instance_repository "save" w.

(** [units_deleted], connected to [post_delete]: the repository of a
    deleted row is read from the table by its primary key. *)
Definition units_deleted (instance : RepositoryContentUnit) (w : World)
  : except unit * World :=
  match find (is_repository (repository instance)) (repositories (db w)) with
  | None => (Raise DoesNotExist, w)
  | Some r =>
      let '(outcome, _, w') := units_changed r "delete" w in (outcome, w')
  end.

Definition is_pair (repo unit : string) (m : RepositoryContentUnit) : bool :=
  (repository m =? repo) && (content_unit m =? unit).

(** [RepositoryContentUnit.objects.get(repository=r, content_unit=u)] *)
Definition get (repo unit : string) (w : World) : except RepositoryContentUnit :=
  match filter (is_pair repo unit) (memberships (db w)) with
  | [] => Raise DoesNotExist
  | [m] => Ok m
  | _ :: _ :: _ => Raise MultipleObjectsReturned
  end.

(** The INSERT of a row: both foreign keys must point to stored rows and
    the pair must be new ([unique_together]). *)
Definition insert (m : RepositoryContentUnit) (w : World) : except unit * World :=
  let d := db w in
  if existsb (is_repository (repository m)) (repositories d)
     && existsb (String.eqb (content_unit m)) (content_units d)
     && negb (existsb (is_pair (repository m) (content_unit m)) (memberships d))
  then (Ok tt, run (InsertMembership (repository m) (content_unit m))
                   {| repositories := repositories d;
                      content_units := content_units d;
                      memberships := memberships d ++ [m] |} w)
  else (Raise IntegrityError,
        run (InsertMembership (repository m) (content_unit m)) d w).

(** [objects.create(repository=self, content_unit=unit)]: the instance is
    saved; [pre_save] runs the handler first, then the two automatic
    timestamps are read and the row is inserted. *)
Definition create (self : Repository) (unit : string) (w : World)
  : except RepositoryContentUnit * Repository * World :=
  let '(handled, self', w1) := units_saved self w in
  match handled with
  | Raise e => (Raise e, self', w1)
  | Ok _ =>
      let m := {| repository := uuid self'; content_unit := unit;
                  created := clock w1; updated := clock (tick w1) |} in
      let '(outcome, w2) := insert m (tick (tick w1)) in
      match outcome with
      | Ok _ => (Ok m, self', w2)
      | Raise e => (Raise e, self', w2)
      end
  end.

(** [objects.get_or_create(repository=self, content_unit=unit)]: [get];
    when there is no row, [create] inside [transaction.atomic]; an
    [IntegrityError] of the insert is answered by a second [get]. *)
Definition get_or_create (self : Repository) (unit : string) (w : World)
  : except (RepositoryContentUnit * bool) * Repository * World :=
  match get (uuid self) unit w with
  | Ok m => (Ok (m, false), self, w)
  | Raise DoesNotExist =>
      let '(outcome, self', w1) := create self unit w in
      match outcome with
      | Ok m => (Ok (m, true), self', w1)
      | Raise e =>
          let w2 := rollback (db w) w1 in
          match e with
          | IntegrityError =>
              match get (uuid self) unit w2 with
              | Ok m => (Ok (m, false), self', w2)
              | Raise DoesNotExist => (Raise IntegrityError, self', w2)
              | Raise e' => (Raise e', self', w2)
              end
          | _ => (Raise e, self', w2)
          end
      end
  | Raise e => (Raise e, self, w)
  end.

(** [Repository.add_units] *)
Fixpoint add_units (self : Repository) (units : list string) (w : World)
  : except unit * Repository * World :=
  match units with
  | [] => (Ok tt, self, w)
  | unit :: rest =>
      let '(outcome, self', w') := get_or_create self unit w in
      match outcome with
      | Ok _ => add_units self' rest w'
      | Raise e => (Raise e, self', w')
      end
  end.

(** The [post_delete] handlers of the deleted rows, one after the other. *)
Fixpoint send_post_delete (rows : list RepositoryContentUnit) (w : World)
  : except unit * World :=
  match rows with
  | [] => (Ok tt, w)
  | m :: rest =>
      let '(outcome, w') := units_deleted m w in
      match outcome with
      | Ok _ => send_post_delete rest w'
      | Raise e => (Raise e, w')
      end
  end.

Definition selected (self : Repository) (units : list string)
           (m : RepositoryContentUnit) : bool :=
  (repository m =? uuid self) && existsb (String.eqb (content_unit m)) units.

(** [Repository.remove_units]: the rows of the query are collected,
    deleted in one statement inside [transaction.atomic], and
    [post_delete] is sent for each of them. *)
Definition remove_units (self : Repository) (units : list string) (w : World)
  : except unit * World :=
  let d := db w in
  let rows := filter (selected self units) (memberships d) in
  match rows with
  | [] => (Ok tt, w)
  | _ :: _ =>
      let w1 := run (DeleteMemberships rows)
                    {| repositories := repositories d;
                       content_units := content_units d;
                       memberships :=
                         filter (fun m => negb (selected self units m))
                                (memberships d) |} w in
      let '(outcome, w2) := send_post_delete rows w1 in
      match outcome with
      | Ok _ => (Ok tt, w2)
      | Raise e => (Raise e, rollback d w2)
      end
  end.

(** What the handlers do to a stored row: one timestamp of the row of
    the repository is set, every other row is kept. *)
Definition stamp_added (pk : string) (now : Z) (row : Repository) : Repository :=
  if is_repository pk row then with_last_unit_added row (Some now) else row.

Definition stamp_removed (pk : string) (now : Z) (row : Repository) : Repository :=
  if is_repository pk row then with_last_unit_removed row (Some now) else row.

(** The order a membership change is specified to have: the row is
    written, the timestamp of the repository is updated after it. *)
Definition row_then_timestamp (trace : list Statement) : Prop :=
  exists before between after repo unit fields,
    trace = before ++ InsertMembership repo unit
                   :: between ++ UpdateRepository repo fields :: after.

(** How many times the row of a repository was written. *)
Definition is_update_of (pk : string) (s : Statement) : bool :=
  match s with
  | UpdateRepository pk' _ => pk' =? pk
  | _ => false
  end.

Definition timestamp_writes (pk : string) (trace : list Statement) : nat :=
  List.length (filter (is_update_of pk) trace).

(** Data for the examples. *)
Definition demo : Repository :=
  {| uuid := "r1"; slug := "demo"; display_name := "Demo"; description := "";
     last_unit_added := None; last_unit_removed := None |}.

Definition demo_world : World :=
  {| db := {| repositories := [demo]; content_units := ["u1"];
              memberships := [] |};
     clock := 100; statements := [] |}.

(** [ContentUnit.add_repos]: the same [get_or_create], once for each
    repository; each repository instance is handed back as the call
    left it, in the order given, up to the one that raised. *)
Fixpoint add_repos (self : string) (repos : list Repository) (w : World)
  : except unit * list Repository * World :=
  match repos with
  | [] => (Ok tt, [], w)
  | repo :: rest =>
      let '(outcome, repo', w') := get_or_create repo self w in
      match outcome with
      | Ok _ =>
          let '(outcome', rest', w'') := add_repos self rest w' in
          (outcome', repo' :: rest', w'')
      | Raise e => (Raise e, [repo'], w')
      end
  end.

Definition selected_for_unit (self : string) (repos : list Repository)
           (m : RepositoryContentUnit) : bool :=
  existsb (fun r => repository m =? uuid r) repos && (content_unit m =? self).

(** [ContentUnit.remove_repos]: as [remove_units], the rows being those
    of the unit in the given repositories. *)
Definition remove_repos (self : string) (repos : list Repository) (w : World)
  : except unit * World :=
  let d := db w in
  let rows := filter (selected_for_unit self repos) (memberships d) in
  match rows with
  | [] => (Ok tt, w)
  | _ :: _ =>
      let w1 := run (DeleteMemberships rows)
                    {| repositories := repositories d;
                       content_units := content_units d;
                       memberships :=
                         filter (fun m => negb (selected_for_unit self repos m))
                                (memberships d) |} w in
      let '(outcome, w2) := send_post_delete rows w1 in
      match outcome with
      | Ok _ => (Ok tt, w2)
      | Raise e => (Raise e, rollback d w2)
      end
  end.

(** [unique_together = [('repository', 'content_unit')]] on the join
    table. *)
Definition pair_of (m : RepositoryContentUnit) : string * string :=
  (repository m, content_unit m).

Definition unique_pairs (ms : list RepositoryContentUnit) : Prop :=
  NoDup (map pair_of ms).

Definition other_repository : Repository :=
  {| uuid := "r2"; slug := "other"; display_name := ""; description := "";
     last_unit_added := None; last_unit_removed := None |}.

(** A world with two repositories, three stored units and one
    membership. *)
Definition busy_world : World :=
  {| db := {| repositories := [demo; other_repository];
              content_units := ["u1"; "u2"; "u3"];
              memberships := [ {| repository := "r2"; content_unit := "u1";
                                  created := 7; updated := 7 |} ] |};
     clock := 200; statements := [] |}.

End Membership.

(** ** The descriptor that makes and caches the named tuple types *)

Module Descriptor.

(** A class, by its identity and its [__name__]. *)
Record PyClass : Type := {
  class_id : nat;
  __name__ : string
}.

(** A type made by [namedtuple(name, fields)]. *)
Record NamedTupleType : Type := {
  typename : string;
  fields : list string
}.

Record NamedTupleDescriptor : Type := {
  classattr : string;
  cache : list (nat * NamedTupleType);
  name : string
}.

(** [__init__]: [name or type(self).__name__]. *)
Definition __init__ (classattr : string) (name : option string)
  : NamedTupleDescriptor :=
  {| classattr := classattr;
     cache := [];
     name := match name with
             | Some n => if n =? "" then "NamedTupleDescriptor" else n
             | None => "NamedTupleDescriptor"
             end |}.

Fixpoint lookup (cls : nat) (cache : list (nat * NamedTupleType))
  : option NamedTupleType :=
  match cache with
  | [] => None
  | (c, t) :: rest => if (c =? cls)%nat then Some t else lookup cls rest
  end.

Section Get.

(** Whether [collections.namedtuple] accepts a type name and a list of
    field names. *)
Variable namedtuple_accepts : string -> list string -> bool.

(** [__get__(self, obj, cls)]; [obj_attr] is [getattr(obj, _)], read
    only when the class has no cached type yet.  The outcome and the
    descriptor as the call leaves it. *)
Definition __get__ (self : NamedTupleDescriptor)
           (obj_attr : string -> except (list string)) (cls : PyClass)
  : except NamedTupleType * NamedTupleDescriptor :=
  match lookup (class_id cls) (cache self) with
  | Some t => (Ok t, self)
  | None =>
      let name := (__name__ cls ++ name self)%string in
      match obj_attr (classattr self) with
      | Raise e => (Raise e, self)
      | Ok value =>
          if namedtuple_accepts name value then
            let t := {| typename := name; fields := value |} in
            (Ok t, {| classattr := classattr self;
                      cache := (class_id cls, t) :: cache self;
                      name := Descriptor.name self |})
          else (Raise ValueError, self)
      end
  end.

End Get.

(** The descriptor of [ContentUnit.KEY_TUPLE] and what two instances
    answer for [KEY_FIELDS]. *)
Definition KEY_TUPLE : NamedTupleDescriptor := __init__ "KEY_FIELDS" (Some "KeyTuple").

Definition rpm_cls : PyClass := {| class_id := 1; __name__ := "RPM" |}.

Definition attr_name_version (attr : string) : except (list string) :=
  if attr =? "KEY_FIELDS" then Ok ["name"; "version"] else Raise AttributeError.

Definition attr_missing (attr : string) : except (list string) :=
  Raise AttributeError.

Definition accepts_any (name : string) (fields : list string) : bool := true.

End Descriptor.

(** ** Counting the units of a repository by type *)

Module Counts.

(** The query of [content_unit_counts]: the content units joined to the
    rows of the join table that belong to the repository, one content
    type for each joined row. *)
Definition member_types (self : Membership.Repository)
           (units : list Identity.BaseRow)
           (memberships : list Membership.RepositoryContentUnit) : list string :=
  flat_map
    (fun m =>
       if Membership.repository m =? Membership.uuid self
       then map Identity.row_content_type
                (filter (fun b => Identity.row_uuid b =? Membership.content_unit m)
                        units)
       else [])
    memberships.

(** [values('content_type').annotate(count=Count('content_type'))]: one
    entry for each content type met, with the number of times it was
    met. *)
Fixpoint count_up (k : string) (d : list (string * nat)) : list (string * nat) :=
  match d with
  | [] => [(k, 1)]
  | (k', n) :: rest =>
      if k' =? k then (k', S n) :: rest else (k', n) :: count_up k rest
  end.

Definition group_count (types : list string) : list (string * nat) :=
  fold_left (fun d k => count_up k d) types [].

(** [Repository.content_unit_counts]: the dictionary from content type to
    count. *)
Definition content_unit_counts (self : Membership.Repository)
           (units : list Identity.BaseRow)
           (memberships : list Membership.RepositoryContentUnit)
  : list (string * nat) :=
  group_count (member_types self units memberships).

Fixpoint count_of (k : string) (d : list (string * nat)) : option nat :=
  match d with
  | [] => None
  | (k', n) :: rest => if k' =? k then Some n else count_of k rest
  end.

Definition total (k : string) (d : list (string * nat)) : nat :=
  match count_of k d with
  | Some n => n
  | None => 0
  end.

(** How often a type occurs in a list of types. *)
Definition occurrences (k : string) (types : list string) : nat :=
  List.length (filter (String.eqb k) types).

Definition stored_units : list Identity.BaseRow :=
  [ {| Identity.row_uuid := "u1"; Identity.row_content_type := "rpm";
       Identity.row_key_digest := "d1" |};
    {| Identity.row_uuid := "u2"; Identity.row_content_type := "deb";
       Identity.row_key_digest := "d2" |};
    {| Identity.row_uuid := "u3"; Identity.row_content_type := "rpm";
       Identity.row_key_digest := "d3" |} ].

Definition stored_memberships : list Membership.RepositoryContentUnit :=
  [ {| Membership.repository := "r1"; Membership.content_unit := "u1";
       Membership.created := 1; Membership.updated := 1 |};
    {| Membership.repository := "r2"; Membership.content_unit := "u2";
       Membership.created := 2; Membership.updated := 2 |};
    {| Membership.repository := "r1"; Membership.content_unit := "u3";
       Membership.created := 3; Membership.updated := 3 |};
    {| Membership.repository := "r1"; Membership.content_unit := "u2";
       Membership.created := 4; Membership.updated := 4 |} ].

End Counts.
(** * Properties *)

(** ** The generic key/value store *)

Section AttributeStoreFacts.
Import AttributeStore.

Lemma role_eqb_refl (r : Role) : role_eqb r r = true.
Proof. destruct r; reflexivity. Qed.

Lemma write_table_same (db : Database) (r : Role) (t : Table) :
  write_table db r t r = t.
Proof. unfold write_table. now rewrite role_eqb_refl. Qed.

Lemma selects_entry (m : GenericKeyValueManager) (k : string) row :
  selects m k row = true <-> entry row = (k, owner_type m, owner_id m).
Proof.
  unfold selects, owned_by, has_key, entry.
  rewrite !andb_true_iff, !String.eqb_eq.
  split; [intros [[-> ->] ->]; reflexivity | intros H; inversion H; auto].
Qed.

Lemma same_entry_spec a b : same_entry a b = true <-> entry a = entry b.
Proof.
  unfold same_entry, entry.
  rewrite !andb_true_iff, !String.eqb_eq.
  split; [intros [[-> ->] ->]; reflexivity | intros H; inversion H; auto].
Qed.

Lemma filter_nil_none {A} (p : A -> bool) (l : list A) :
  filter p l = [] -> forall x, In x l -> p x = false.
Proof.
  intros H x Hx. destruct (p x) eqn:E; [|reflexivity].
  assert (In x (filter p l)) by (apply filter_In; auto).
  rewrite H in *. contradiction.
Qed.

Lemma unique_selected (t : Table) (m : GenericKeyValueManager) (k : string) :
  NoDup (map entry t) -> List.length (filter (selects m k) t) <= 1.
Proof.
  induction t as [|row t IH]; simpl; intros Hnd; [lia|].
  inversion Hnd as [|? ? Hnot Hnd']; subst.
  destruct (selects m k row) eqn:E; [|auto].
  simpl. 
  assert (Hnone : filter (selects m k) t = []).
  { destruct (filter (selects m k) t) as [|y ys] eqn:F; [reflexivity|].
    assert (Hy : In y (filter (selects m k) t)) by (rewrite F; left; reflexivity).
    apply filter_In in Hy as [Hin Hsel].
    exfalso. apply Hnot.
    apply selects_entry in E. apply selects_entry in Hsel.
    rewrite E, <- Hsel. now apply in_map. }
  rewrite Hnone. simpl. lia.
Qed.

Lemma fresh_id_new (t : Table) : ~ In (fresh_id t) (map id t).
Proof.
  unfold fresh_id. intros Hin.
  assert (H := list_max_le (map id t) (list_max (map id t))).
  destruct H as [H _]. specialize (H (le_n _)).
  rewrite Forall_forall in H. apply H in Hin. lia.
Qed.

(** What [manager_get] finds is a row of the table that the manager selects. *)
Lemma manager_get_ok m k db item :
  manager_get m k db = Ok item ->
  manager_filter m k db = [item] /\ In item (db (model m)) /\ selects m k item = true.
Proof.
  unfold manager_get. destruct (manager_filter m k db) as [|x [|y l]] eqn:F;
    intros H; inversion H; subst.
  split; [reflexivity|].
  assert (Hi : In item (manager_filter m k db)) by (rewrite F; left; reflexivity).
  unfold manager_filter in Hi. now apply filter_In in Hi.
Qed.

(** Under the table constraints the lookup never meets two rows. *)
Lemma manager_get_cases m k db :
  constraints (db (model m)) ->
  (manager_filter m k db = [] /\ manager_get m k db = Raise DoesNotExist)
  \/ exists item, manager_filter m k db = [item] /\ manager_get m k db = Ok item.
Proof.
  intros [_ Hu]. pose proof (unique_selected _ m k Hu) as Hlen.
  unfold manager_get, manager_filter in *.
  destruct (filter (selects m k) (db (model m))) as [|x [|y l]]; simpl in Hlen.
  - left; auto.
  - right; eauto.
  - lia.
Qed.

Lemma NoDup_snoc {A} (l : list A) (x : A) :
  NoDup l -> ~ In x l -> NoDup (l ++ [x]).
Proof.
  intros Hl Hx. apply NoDup_app; [assumption | repeat constructor; auto |].
  intros a Ha [<- | []]. contradiction.
Qed.

Lemma create_when_absent m k v db :
  constraints (db (model m)) ->
  manager_filter m k db = [] ->
  exists db', manager_create m k v db = Ok db'
    /\ constraints (db' (model m))
    /\ manager_filter m k db' = [new_row m k v (db (model m))].
Proof.
  intros [Hid Hu] Habs. unfold manager_create.
  fold (new_row m k v (db (model m))).
  set (row := new_row m k v (db (model m))).
  assert (Hsel : selects m k row = true) by (apply selects_entry; reflexivity).
  assert (Hfree : ~ In (entry row) (map entry (db (model m)))).
  { intros Hin. apply in_map_iff in Hin as [y [Hy Hin]].
    pose proof (filter_nil_none _ _ Habs y Hin) as Hn.
    assert (selects m k y = true) by (apply selects_entry; rewrite Hy; reflexivity).
    congruence. }
  destruct (existsb (same_entry row) (db (model m))) eqn:E.
  { apply existsb_exists in E as [y [Hin Hy]]. apply same_entry_spec in Hy.
    exfalso. apply Hfree. rewrite Hy. now apply in_map. }
  eexists; split; [reflexivity|].
  unfold manager_filter. rewrite write_table_same. split.
  - split; rewrite map_app; simpl; apply NoDup_snoc; auto.
    apply fresh_id_new.
  - rewrite filter_app. unfold manager_filter in Habs. rewrite Habs.
    simpl. now rewrite Hsel.
Qed.

Lemma NoDup_map_eq {A B} (f : A -> B) (l : list A) (a b : A) :
  NoDup (map f l) -> In a l -> In b l -> f a = f b -> a = b.
Proof.
  induction l as [|x l IH]; simpl; intros Hnd Ha Hb Hab; [contradiction|].
  inversion Hnd as [|? ? Hnot Hnd']; subst.
  destruct Ha as [-> | Ha], Hb as [-> | Hb]; auto.
  - exfalso. apply Hnot. rewrite Hab. now apply in_map.
  - exfalso. apply Hnot. rewrite <- Hab. now apply in_map.
Qed.

Lemma filter_map_in {A} (p : A -> bool) (f : A -> A) (l : list A) :
  (forall x, In x l -> p (f x) = p x) ->
  filter p (map f l) = map f (filter p l).
Proof.
  induction l as [|x l IH]; simpl; intros H; [reflexivity|].
  rewrite (H x (or_introl eq_refl)), IH by auto.
  now destruct (p x).
Qed.

Lemma update_when_present m k v db item :
  constraints (db (model m)) ->
  manager_filter m k db = [item] ->
  let db' := item_save (model m) (set_value item v) db in
  constraints (db' (model m))
  /\ manager_filter m k db' = [set_value item v]
  /\ map id (db' (model m)) = map id (db (model m)).
Proof.
  intros [Hid Hu] Hf db'.
  assert (Hi : In item (filter (selects m k) (db (model m)))).
  { unfold manager_filter in Hf. rewrite Hf. left; reflexivity. }
  apply filter_In in Hi as [Hin Hsel].
  set (f := fun row => if (id row =? id (set_value item v))%nat
                       then set_value item v else row).
  assert (Hf_id : forall row, id (f row) = id row).
  { intros row. unfold f. destruct (id row =? _)%nat eqn:E; [|reflexivity].
    apply Nat.eqb_eq in E. now rewrite E. }
  assert (Hf_entry : forall row, In row (db (model m)) -> entry (f row) = entry row).
  { intros row Hr. unfold f. destruct (id row =? _)%nat eqn:E; [|reflexivity].
    apply Nat.eqb_eq in E. simpl in E.
    now rewrite (NoDup_map_eq id _ row item Hid Hr Hin E). }
  assert (Hf_item : f item = set_value item v).
  { unfold f. simpl. now rewrite Nat.eqb_refl. }
  assert (Hf_other : forall row, In row (db (model m)) ->
                                 selects m k (f row) = selects m k row).
  { intros row Hr. pose proof (Hf_entry row Hr) as He.
    destruct (selects m k row) eqn:E.
    - apply selects_entry. apply selects_entry in E. congruence.
    - destruct (selects m k (f row)) eqn:E'; [|reflexivity].
      apply selects_entry in E'. rewrite He in E'.
      apply selects_entry in E'. congruence. }
  assert (Htab : db' (model m) = map f (db (model m))).
  { unfold db', item_save.
    destruct (existsb _ (db (model m))) eqn:E.
    - now rewrite write_table_same.
    - exfalso. rewrite <- not_true_iff_false in E. apply E.
      apply existsb_exists. exists item. split; [assumption|].
      simpl. apply Nat.eqb_refl. }
  unfold manager_filter. rewrite Htab. repeat split.
  - rewrite map_map. now rewrite (map_ext _ id Hf_id).
  - rewrite map_map. now rewrite (map_ext_in _ entry _ Hf_entry).
  - rewrite filter_map_in by assumption.
    unfold manager_filter in Hf. rewrite Hf. simpl. now rewrite Hf_item.
  - rewrite map_map. now rewrite (map_ext _ id Hf_id).
Qed.

(** A value other than [None] is sent to the column as its text. *)
Lemma text_column_text (v : pyval) :
  v <> VNone -> text_column v = Some (val_str v).
Proof. destruct v; simpl; congruence. Qed.

Lemma setitem_of_text m k v db :
  v <> VNone ->
  __setitem__ m k v db
  = match manager_get m k db with
    | Ok item => Ok (item_save (model m) (set_value item (val_str v)) db)
    | Raise DoesNotExist => manager_create m k (val_str v) db
    | Raise e => Raise e
    end.
Proof.
  intros Hv. unfold __setitem__. rewrite (text_column_text v Hv).
  destruct (manager_get m k db) as [item|e]; [reflexivity|].
  destruct e; reflexivity.
Qed.

(** An assignment that succeeded was not of [None]. *)
Lemma setitem_ok_not_none m k v db db' :
  __setitem__ m k v db = Ok db' -> v <> VNone.
Proof.
  intros H ->. unfold __setitem__ in H. simpl in H.
  destruct (manager_get m k db) as [item|e]; [discriminate|].
  destruct e; discriminate.
Qed.

(** Whatever the table holds for the key, a set stores the text of the
    value under it, in the row that was there when there was one. *)
Lemma setitem_stores m k v db :
  constraints (db (model m)) ->
  v <> VNone ->
  exists db', __setitem__ m k v db = Ok db'
    /\ constraints (db' (model m))
    /\ __getitem__ m k db' = Ok (val_str v)
    /\ List.length (manager_filter m k db') = 1
    /\ (manager_filter m k db <> [] ->
        map id (db' (model m)) = map id (db (model m))).
Proof.
  intros Hc Hv. rewrite (setitem_of_text m k v db Hv). unfold __getitem__.
  destruct (manager_get_cases m k db Hc) as [[Hf Hg] | [item [Hf Hg]]]; rewrite Hg.
  - destruct (create_when_absent m k (val_str v) db Hc Hf) as [db' [Hcr [Hc' Hf']]].
    exists db'. unfold manager_get. rewrite Hcr, Hf'. simpl.
    repeat split; try apply Hc'; congruence.
  - destruct (update_when_present m k (val_str v) db item Hc Hf) as [Hc' [Hf' Hids]].
    eexists; split; [reflexivity|]. unfold manager_get. rewrite Hf'. simpl.
    repeat split; try apply Hc'; auto.
Qed.

Lemma delitem_removes m k db : manager_filter m k (__delitem__ m k db) = [].
Proof.
  unfold manager_filter, __delitem__. rewrite write_table_same.
  induction (db (model m)) as [|x t IH]; simpl; [reflexivity|].
  destruct (selects m k x) eqn:E; simpl; [assumption|].
  now rewrite E.
Qed.

(** C7.  On a table that satisfies its declared constraints: after
    [mapping[k] = v] with a text [v], [mapping[k]] returns [v]; a second
    assignment to the same key updates the row that is there (the table
    keeps the same primary keys, one row is selected for the key) and
    [mapping[k]] returns the latest value; reading a key that has no row,
    or was deleted, raises [DoesNotExist]. *)
Theorem mapping_set_then_get (m : GenericKeyValueManager) (k v1 v2 : string)
        (db : Database) :
  constraints (db (model m)) ->
  exists db1 db2,
    __setitem__ m k (VStr v1) db = Ok db1
    /\ __getitem__ m k db1 = Ok v1
    /\ __setitem__ m k (VStr v2) db1 = Ok db2
    /\ __getitem__ m k db2 = Ok v2
    /\ List.length (manager_filter m k db2) = 1
    /\ map id (db2 (model m)) = map id (db1 (model m))
    /\ (manager_filter m k db = [] -> __getitem__ m k db = Raise DoesNotExist)
    /\ __getitem__ m k (__delitem__ m k db2) = Raise DoesNotExist.
Proof.
  intros Hc.
  destruct (setitem_stores m k (VStr v1) db Hc ltac:(discriminate))
    as [db1 [H1 [Hc1 [Hg1 [Hl1 _]]]]].
  destruct (setitem_stores m k (VStr v2) db1 Hc1 ltac:(discriminate))
    as [db2 [H2 [Hc2 [Hg2 [Hl2 Hid2]]]]].
  exists db1, db2. repeat split; auto.
  - apply Hid2. intros Hnil. rewrite Hnil in Hl1. discriminate.
  - intros Hnil. unfold __getitem__, manager_get. now rewrite Hnil.
  - unfold __getitem__, manager_get. now rewrite delitem_removes.
Qed.

Lemma mapping_set_then_get_witness :
  exists db1 db2,
    __setitem__ notes_of_demo "k" (VStr "v1") demo_notes = Ok db1
    /\ __getitem__ notes_of_demo "k" db1 = Ok "v1"
    /\ __setitem__ notes_of_demo "k" (VStr "v2") db1 = Ok db2
    /\ __getitem__ notes_of_demo "k" db2 = Ok "v2"
    /\ List.length (manager_filter notes_of_demo "k" db2) = 1
    /\ map id (db2 Notes) = map id (db1 Notes)
    /\ (manager_filter notes_of_demo "k" demo_notes = [] ->
        __getitem__ notes_of_demo "k" demo_notes = Raise DoesNotExist)
    /\ __getitem__ notes_of_demo "k" (__delitem__ notes_of_demo "k" db2)
       = Raise DoesNotExist.
Proof.
  apply (mapping_set_then_get notes_of_demo "k" "v1" "v2" demo_notes).
  split; simpl; repeat constructor; simpl; intuition discriminate.
Defined.

End AttributeStoreFacts.

(** ** Checksums of files *)

Section FilesFacts.
Import Hashlib Files.

Lemma hash_fields_are :
  _hash_field_generator = ["md5"; "sha1"; "sha224"; "sha256"; "sha384"; "sha512"].
Proof. reflexivity. Qed.

Lemma digests_of_spec (self : ContentUnitFile) (fields : list string) (c : Checksum) :
  In c (digests_of self fields) <->
  In (algorithm c) fields
  /\ get_hash_field self (algorithm c) = Some (digest c)
  /\ digest c <> "".
Proof.
  induction fields as [|f fields IH]; simpl.
  - tauto.
  - destruct (get_hash_field self f) as [v|] eqn:G.
    + simpl. destruct (v =? "") eqn:E; simpl.
      * apply String.eqb_eq in E. subst v. rewrite IH. split.
        -- intros [H1 H2]. auto.
        -- intros [[Hf | H1] [H2 H3]]; [|auto].
           subst f. rewrite G in H2. inversion H2. congruence.
      * apply String.eqb_neq in E. rewrite IH. split.
        -- intros [<- | [H1 H2]]; simpl; auto.
        -- intros [[Hf | H1] [H2 H3]]; [|auto].
           left. destruct c as [a d]; simpl in *. subst f. rewrite G in H2.
           now inversion H2.
    + rewrite IH. split.
      * intros [H1 H2]; auto.
      * intros [[Hf | H1] [H2 H3]]; [|auto]. subst f. congruence.
Qed.

Lemma insert_desc_head {A} (key : A -> nat) (x : A) (l : list A) :
  hd_error (insert_desc key x l)
  = match hd_error l with
    | Some y => if (key y <=? key x)%nat then Some x else Some y
    | None => Some x
    end.
Proof.
  destruct l as [|y l]; simpl; [reflexivity|].
  now destruct (key y <=? key x)%nat.
Qed.

(** The head of the sorted list is the first item of the largest key. *)
Lemma sorted_reverse_head {A} (key : A -> nat) (xs : list A) :
  hd_error (sorted_reverse key xs) = first_longest key xs.
Proof.
  induction xs as [|x xs IH]; simpl; [reflexivity|].
  now rewrite insert_desc_head, IH.
Qed.

Lemma first_longest_none {A} (key : A -> nat) (xs : list A) :
  first_longest key xs = None -> xs = [].
Proof.
  destruct xs as [|x xs]; simpl; [reflexivity|].
  destruct (first_longest key xs); [destruct (_ <=? _)%nat|]; discriminate.
Qed.

Lemma first_longest_some {A} (key : A -> nat) (xs : list A) (c : A) :
  first_longest key xs = Some c ->
  exists before after,
    xs = before ++ c :: after
    /\ (forall y, In y before -> key y < key c)
    /\ (forall y, In y after -> key y <= key c).
Proof.
  revert c. induction xs as [|x xs IH]; simpl; intros c H; [discriminate|].
  destruct (first_longest key xs) as [y|] eqn:F.
  - destruct (IH y eq_refl) as [before [after [Hxs [Hb Ha]]]].
    destruct (key y <=? key x)%nat eqn:E; inversion H; subst c.
    + apply Nat.leb_le in E. exists [], xs. repeat split; [intros ? [] |].
      intros z Hz. rewrite Hxs in Hz. apply in_app_or in Hz as [Hz | [<- | Hz]].
      * apply Hb in Hz. lia.
      * assumption.
      * apply Ha in Hz. lia.
    + apply Nat.leb_gt in E. exists (x :: before), after.
      repeat split; [simpl; now rewrite Hxs | | assumption].
      intros z [<- | Hz]; auto.
  - inversion H; subst c. apply first_longest_none in F. subst xs.
    exists [], []. repeat split; intros ? [].
Qed.

(** The sort is a sort: same items, keys in descending order. *)
Lemma insert_desc_In {A} (key : A -> nat) (x y : A) (l : list A) :
  In y (insert_desc key x l) <-> y = x \/ In y l.
Proof.
  induction l as [|z l IH]; simpl.
  - intuition.
  - destruct (key z <=? key x)%nat; simpl; [intuition|].
    rewrite IH. intuition.
Qed.

Lemma sorted_reverse_In {A} (key : A -> nat) (y : A) (xs : list A) :
  In y (sorted_reverse key xs) <-> In y xs.
Proof.
  induction xs as [|x xs IH]; simpl; [tauto|].
  rewrite insert_desc_In, IH. intuition.
Qed.

(** C9.  [best_checksum] picks among the hash fields that hold a
    non-empty digest; its result has the longest digest, every
    candidate met earlier in the field order (md5, sha1, sha224, sha256,
    sha384, sha512) is strictly shorter, and the result is [None]
    exactly when no field holds a digest. *)
Theorem best_checksum_longest_first (self : ContentUnitFile) :
  (forall c, In c (_digest_generator self) <->
             In (algorithm c) ["md5"; "sha1"; "sha224"; "sha256"; "sha384"; "sha512"]
             /\ get_hash_field self (algorithm c) = Some (digest c)
             /\ digest c <> "")
  /\ match best_checksum self with
     | None => _digest_generator self = []
     | Some c =>
         exists before after,
           _digest_generator self = before ++ c :: after
           /\ (forall c', In c' before ->
                          String.length (digest c') < String.length (digest c))
           /\ (forall c', In c' after ->
                          String.length (digest c') <= String.length (digest c))
     end.
Proof.
  split.
  - intros c. unfold _digest_generator. rewrite <- hash_fields_are.
    apply digests_of_spec.
  - unfold best_checksum.
    pose proof (sorted_reverse_head (fun c => String.length (digest c))
                                    (_digest_generator self)) as Hh.
    destruct (sorted_reverse _ (_digest_generator self)) as [|c l]; simpl in Hh.
    + symmetry in Hh. now apply first_longest_none in Hh.
    + symmetry in Hh. now apply first_longest_some in Hh.
Qed.

(** With an md5 and a sha256 digest present the sha256 entry wins; with
    no digest there is no best checksum. *)
Example best_checksum_md5_sha256 :
  best_checksum two_digests
  = Some {| algorithm := "sha256";
            digest := "ba7816bf8f01cfea414140de5dae2223b00361a396177a9cb410ff61f20015ad" |}
  /\ best_checksum (blank_file (content two_digests)) = None.
Proof. split; reflexivity. Qed.

(** *** Saving a file *)

Lemma encode_utf8_cons (c : ascii) (s : string) :
  encode_utf8 (String c s) = utf8_char c ++ encode_utf8 s.
Proof. reflexivity. Qed.

(** The lines of a text, encoded one by one, are the encoded text. *)
Lemma readlines_text_bytes (s : string) :
  List.concat (map encode_utf8 (readlines_text s)) = encode_utf8 s.
Proof.
  induction s as [|c s IH]; simpl; [reflexivity|].
  rewrite encode_utf8_cons.
  destruct (Ascii.eqb c newline).
  - simpl. rewrite IH. unfold encode_utf8 at 1. simpl. now rewrite app_nil_r.
  - destruct (readlines_text s) as [|ln lns]; simpl in *.
    + rewrite <- IH. unfold encode_utf8. simpl. now rewrite !app_nil_r.
    + rewrite <- IH, encode_utf8_cons. now rewrite app_assoc.
Qed.

Lemma update_nil (h : hasher) : update h [] = h.
Proof. destruct h. unfold update. simpl. now rewrite app_nil_r. Qed.

Lemma update_app (h : hasher) (a b : list byte) :
  update (update h a) b = update h (a ++ b).
Proof. unfold update. simpl. now rewrite app_assoc. Qed.

Lemma feed_line_str (s : string) (hashers : list (string * hasher)) :
  feed_line (StrLine s) hashers = Ok (feed_each (encode_utf8 s) hashers).
Proof.
  induction hashers as [|[a h] hs IH]; simpl; [reflexivity|].
  now rewrite IH.
Qed.

Lemma feed_lines_str (ls : list string) (hashers : list (string * hasher)) :
  feed_lines (map StrLine ls) hashers
  = Ok (feed_each (List.concat (map encode_utf8 ls)) hashers).
Proof.
  revert hashers. induction ls as [|l ls IH]; intros hashers; simpl.
  - f_equal. unfold feed_each. induction hashers as [|[a h] hs IHh]; simpl;
      [reflexivity|]. now rewrite update_nil, <- IHh.
  - rewrite feed_line_str. simpl. rewrite IH. f_equal.
    unfold feed_each. rewrite map_map. apply map_ext.
    intros [a h]. simpl. now rewrite update_app.
Qed.

(** A line of [bytes] stops the loop at its first hasher. *)
Lemma feed_lines_bytes (b : list byte) (ls : list line) :
  feed_lines (BytesLine b :: ls) new_hashers = Raise AttributeError.
Proof. reflexivity. Qed.

(** Text content.  For a file whose content has a name and yields text,
    [save] feeds the UTF-8 form of each line to the six hashers and hands
    to the parent [save] an instance with, in every hash field, the
    digest of the UTF-8 form of the whole text and, in [file_size], the
    size the content reports; the other fields are as they were. *)
Theorem save_hashes_text_content
        (digest_hex : string -> list byte -> string) (Store : Type)
        (super_save : ContentUnitFile -> Store -> except Store)
        (self : ContentUnitFile) (st : Store) (text : string) :
  content_truthy (content self) = true ->
  file (content self) = TextStream text ->
  exists self',
    save digest_hex Store super_save self st = (super_save self' st, self')
    /\ (forall algo, In algo _hash_field_generator ->
          get_hash_field self' algo = Some (digest_hex algo (encode_utf8 text)))
    /\ file_size self' = Some (size (content self))
    /\ content self' = content self
    /\ uuid self' = uuid self /\ unit self' = unit self
    /\ downloaded self' = downloaded self.
Proof.
  intros Ht Hf. unfold save. rewrite Ht. unfold readlines. rewrite Hf.
  rewrite feed_lines_str, readlines_text_bytes.
  eexists. split; [reflexivity|].
  split; [|repeat split].
  intros algo Hin. rewrite hash_fields_are in Hin. simpl in Hin.
  decompose [or] Hin; subst; try contradiction; reflexivity.
Qed.

Lemma save_hashes_text_content_witness :
  exists self',
    save toy_digest _ accept_row text_file [] = (accept_row self' [], self')
    /\ (forall algo, In algo _hash_field_generator ->
          get_hash_field self' algo = Some (toy_digest algo (encode_utf8 "ab
cd")))
    /\ file_size self' = Some (size (content text_file))
    /\ content self' = content text_file
    /\ uuid self' = uuid text_file /\ unit self' = unit text_file
    /\ downloaded self' = downloaded text_file.
Proof.
  apply (save_hashes_text_content toy_digest _ accept_row text_file [] "ab
cd"); reflexivity.
Defined.

(** C5, at a file whose content yields bytes: the first line has no
    [encode], [save] raises [AttributeError] before any field is set, so
    no digest of the byte content and no byte count is recorded. *)
Lemma save_bytes_content_records_nothing :
  content_truthy (content binary_file) = true
  /\ save toy_digest _ accept_row binary_file [] = (Raise AttributeError, binary_file)
  /\ ~ (forall algo, In algo _hash_field_generator ->
          get_hash_field (snd (save toy_digest _ accept_row binary_file [])) algo
          = Some (toy_digest algo (content_bytes (content binary_file))))
  /\ file_size (snd (save toy_digest _ accept_row binary_file []))
     <> Some (Z.of_nat (List.length (content_bytes (content binary_file)))).
Proof.
  repeat split.
  - intros H. specialize (H "md5" (or_introl eq_refl)). discriminate H.
  - discriminate.
Qed.

End FilesFacts.

(** ** Content units *)

Section IdentityFacts.
Import Hashlib Identity.

Lemma encode_utf8_app (a b : string) :
  encode_utf8 (a ++ b)%string = encode_utf8 a ++ encode_utf8 b.
Proof.
  induction a as [|c a IH]; simpl; [reflexivity|].
  rewrite !encode_utf8_cons, IH. now rewrite app_assoc.
Qed.

Lemma encode_utf8_join (l : list string) :
  encode_utf8 (join_all l) = List.concat (map encode_utf8 l).
Proof.
  induction l as [|s l IH]; simpl; [reflexivity|].
  now rewrite encode_utf8_app, IH.
Qed.

(** Feeding a hasher piece by piece is feeding it the concatenation. *)
Lemma fold_update {A} (f : A -> list byte) (items : list A) (h : hasher) :
  fold_left (fun h x => update h (f x)) items h
  = update h (List.concat (map f items)).
Proof.
  revert h. induction items as [|x items IH]; intros h; simpl.
  - now rewrite update_nil.
  - now rewrite IH, update_app.
Qed.

Section WithRuntime.

Variable digest_hex : string -> list byte -> string.
Variable subclasses : list ModelClass.
Variable class_attr : ContentUnit -> string -> option pyobj.
Variable unit_str : ContentUnit -> string.
Variable namedtuple_accepts : list string -> bool.

Local Abbreviation cast := (cast subclasses class_attr).
Local Abbreviation getattr := (getattr subclasses class_attr).
Local Abbreviation key_dict := (key_dict subclasses class_attr namedtuple_accepts).
Local Abbreviation hash_key :=
  (hash_key digest_hex subclasses class_attr unit_str namedtuple_accepts).
Local Abbreviation save :=
  (save digest_hex subclasses class_attr unit_str namedtuple_accepts).

Lemma getattrs_length db obj fields vs :
  getattrs subclasses class_attr db obj fields = Ok vs ->
  List.length vs = List.length fields.
Proof.
  revert vs. induction fields as [|f fields IH]; simpl; intros vs H.
  - now inversion H.
  - destruct (getattr db obj f); simpl in H; [|discriminate].
    destruct (getattrs _ _ db obj fields); simpl in H; [|discriminate].
    inversion H; subst. simpl. now rewrite (IH _ eq_refl).
Qed.

Lemma map_fst_combine_same {A B} (l : list A) (l' : list B) :
  List.length l' = List.length l -> map fst (combine l l') = l.
Proof.
  revert l'. induction l as [|x l IH]; intros [|y l'] H; simpl in *;
    try discriminate; [reflexivity|]. f_equal. apply IH. now inversion H.
Qed.

(** The names of a key mapping are the [KEY_FIELDS] of the class of the
    cast object, in their declared order. *)
Lemma key_dict_names db self obj items :
  cast db self = Ok (Unit obj) ->
  key_dict db self = Ok items ->
  map fst items = KEY_FIELDS (class_of obj).
Proof.
  unfold Identity.key_dict, key_tuple. intros -> . simpl.
  destruct (namedtuple_accepts _); [|discriminate].
  destruct (getattrs _ _ db obj _) as [vs|] eqn:G; simpl; [|discriminate].
  intros H; inversion H; subst.
  apply map_fst_combine_same. eapply getattrs_length; eauto.
Qed.

(** The digest is SHA-256 over the items of the key mapping, each item
    the field name followed by the text of the value. *)
Lemma hash_key_value db self items :
  key_dict db self = Ok items ->
  hash_key db self None
  = Ok (digest_hex "sha256"
          (encode_utf8 (join_all (map (key_item_text unit_str) items)))).
Proof.
  intros Hk. unfold Identity.hash_key. rewrite Hk. simpl.
  unfold key_item_bytes. rewrite fold_update. unfold hexdigest. simpl.
  now rewrite encode_utf8_join, map_map.
Qed.

Lemma key_item_text_by_dict_text (xs ys : list (string * pyobj)) :
  key_dict_text unit_str xs = key_dict_text unit_str ys ->
  map (key_item_text unit_str) xs = map (key_item_text unit_str) ys.
Proof.
  revert ys. induction xs as [|x xs IH]; intros [|y ys] H; simpl in *;
    try discriminate; [reflexivity|].
  inversion H as [[H1 H2 H3]]. unfold key_item_text at 1 3.
  rewrite H1, H2. f_equal. now apply IH.
Qed.

(** *** cast *)

(** A record whose class already is its declared type is returned as it
    is. *)
Lemma cast_already_cast db self :
  _get_content_type self = content_type self ->
  cast db self = Ok (Unit self).
Proof.
  intros H. unfold Identity.cast. rewrite H. now rewrite String.eqb_refl.
Qed.

Lemma cast_attribute_error db self :
  getattr db self (content_type self) = Raise AttributeError ->
  cast db self = Ok (Unit self).
Proof.
  intros H. unfold Identity.cast. rewrite H.
  now destruct (_get_content_type self =? content_type self).
Qed.

(** Past the fields of the master model, a name is looked up among the
    fields of the subclass, the other attributes and the accessors. *)
Lemma getattr_past_fields db self name :
  ~ In name ["pk"; "uuid"; "content_type"; "key_digest"] ->
  getattr db self name
  = match assoc name (detail self) with
    | Some v => Ok (Val v)
    | None =>
        match class_attr self name with
        | Some o => Ok o
        | None =>
            match find (fun c => model_name c =? name) subclasses with
            | Some c => related_object db c self
            | None => Raise AttributeError
            end
        end
    end.
Proof.
  intros Hn. unfold Identity.getattr. simpl in Hn.
  destruct (name =? "pk") eqn:E1;
    [apply String.eqb_eq in E1; intuition congruence|].
  destruct (name =? "uuid") eqn:E2;
    [apply String.eqb_eq in E2; intuition congruence|].
  destruct (name =? "content_type") eqn:E3;
    [apply String.eqb_eq in E3; intuition congruence|].
  destruct (name =? "key_digest") eqn:E4;
    [apply String.eqb_eq in E4; intuition congruence|].
  reflexivity.
Qed.

(** A discriminator that is the name of nothing on the instance (no
    field, no other attribute, no installed subclass) leaves the record
    as it is. *)
Lemma cast_unknown_name db self :
  ~ In (content_type self) ["pk"; "uuid"; "content_type"; "key_digest"] ->
  assoc (content_type self) (detail self) = None ->
  class_attr self (content_type self) = None ->
  find (fun c => model_name c =? content_type self) subclasses = None ->
  cast db self = Ok (Unit self).
Proof.
  intros Hn Hd Hc Hs. apply cast_attribute_error.
  rewrite getattr_past_fields by assumption. now rewrite Hd, Hc, Hs.
Qed.

(** When the discriminator names an installed subclass and the stored
    master row carries the same discriminator, casting the result again
    changes nothing. *)
Lemma cast_twice_on_stored_unit db self c :
  ~ In (content_type self) ["pk"; "uuid"; "content_type"; "key_digest"] ->
  assoc (content_type self) (detail self) = None ->
  class_attr self (content_type self) = None ->
  find (fun c => model_name c =? content_type self) subclasses = Some c ->
  (forall b, find (fun r => row_uuid r =? uuid self) (contentunit_rows db) = Some b ->
             row_content_type b = content_type self) ->
  exists obj, cast db self = Ok (Unit obj)
              /\ cast_again subclasses class_attr db (Unit obj) = Ok (Unit obj).
Proof.
  intros Hn Hd Hc Hs Hrow.
  destruct (_get_content_type self =? content_type self) eqn:E.
  { apply String.eqb_eq in E. exists self. simpl.
    now rewrite cast_already_cast. }
  assert (Hg : getattr db self (content_type self) = related_object db c self).
  { rewrite getattr_past_fields by assumption. now rewrite Hd, Hc, Hs. }
  assert (Hcast : cast db self
                  = match related_object db c self with
                    | Raise AttributeError => Ok (Unit self)
                    | outcome => outcome
                    end).
  { unfold Identity.cast. now rewrite E, Hg. }
  unfold related_object in Hcast.
  destruct (find _ (detail_rows db (model_name c))) as [d|].
  - destruct (find _ (contentunit_rows db)) as [b|] eqn:Fb.
    + eexists. split; [exact Hcast|]. simpl. apply cast_already_cast.
      unfold _get_content_type. simpl. rewrite (Hrow b eq_refl).
      apply find_some in Hs as [_ Hs]. now apply String.eqb_eq in Hs.
    + exists self. split; [exact Hcast|]. exact Hcast.
  - exists self. split; [exact Hcast|]. exact Hcast.
Qed.


End WithRuntime.

(** C1.  [hash_key] is the SHA-256 hex digest of the concatenation, in
    the order of the declared [KEY_FIELDS], of each key-field name
    followed by the text of its value; so two units, of the same class or
    not, whose key mappings agree on the field names and on the texts of
    the values have the same key digest. *)
Theorem hash_key_deterministic
        (digest_hex : string -> list byte -> string)
        (subclasses : list ModelClass)
        (class_attr : ContentUnit -> string -> option pyobj)
        (unit_str : ContentUnit -> string)
        (namedtuple_accepts : list string -> bool)
        (dbA dbB : Database) (A B : ContentUnit)
        (itemsA itemsB : list (string * pyobj)) :
  key_dict subclasses class_attr namedtuple_accepts dbA A = Ok itemsA ->
  key_dict subclasses class_attr namedtuple_accepts dbB B = Ok itemsB ->
  key_dict_text unit_str itemsA = key_dict_text unit_str itemsB ->
  hash_key digest_hex subclasses class_attr unit_str namedtuple_accepts dbA A None
  = Ok (digest_hex "sha256"
          (encode_utf8 (join_all (map (key_item_text unit_str) itemsA))))
  /\ (forall obj, cast subclasses class_attr dbA A = Ok (Unit obj) ->
                  map fst itemsA = KEY_FIELDS (class_of obj))
  /\ hash_key digest_hex subclasses class_attr unit_str namedtuple_accepts dbA A None
     = hash_key digest_hex subclasses class_attr unit_str namedtuple_accepts dbB B None.
Proof.
  intros HA HB Heq. repeat split.
  - now apply hash_key_value.
  - intros obj Hc. eapply key_dict_names; eauto.
  - rewrite (hash_key_value _ _ _ _ _ _ _ _ HA), (hash_key_value _ _ _ _ _ _ _ _ HB).
    now rewrite (key_item_text_by_dict_text _ _ _ Heq).
Qed.

Lemma hash_key_deterministic_witness :
  hash_key toy_digest installed no_class_attr uuid_str accept_all empty_db rpm_unit None
  = Ok (toy_digest "sha256" (encode_utf8 "namepkgAversion1"))
  /\ (forall obj, cast installed no_class_attr empty_db rpm_unit = Ok (Unit obj) ->
                  ["name"; "version"] = KEY_FIELDS (class_of obj))
  /\ hash_key toy_digest installed no_class_attr uuid_str accept_all empty_db rpm_unit None
     = hash_key toy_digest installed no_class_attr uuid_str accept_all empty_db
                (with_content_type deb_unit "deb") None.
Proof.
  apply (hash_key_deterministic toy_digest installed no_class_attr uuid_str
           accept_all empty_db empty_db rpm_unit (with_content_type deb_unit "deb")
           [("name", Val (VStr "pkgA")); ("version", Val (VStr "1"))]
           [("name", Val (VStr "pkgA")); ("version", Val (VInt 1))]);
    reflexivity.
Defined.

(** *** The discriminator collides with an attribute *)

(** C6, at a discriminator that is no installed type but the name of a
    field: whatever is installed and stored, [cast] hands back the value
    of that field, a string, and not the record. *)
Theorem cast_stray_discriminator_returns_field
        (subclasses : list ModelClass)
        (class_attr : ContentUnit -> string -> option pyobj)
        (db : Database) :
  cast subclasses class_attr db stray_unit = Ok (Val (VStr "abc"))
  /\ find (fun c => model_name c =? content_type stray_unit) installed = None
  /\ cast installed no_class_attr empty_db stray_unit <> Ok (Unit stray_unit).
Proof. repeat split. discriminate. Qed.

(** C8, at the same record: the first cast gives a string, which has no
    [cast]; the second call raises and is not equal to the first. *)
Theorem cast_twice_on_stray_discriminator
        (subclasses : list ModelClass)
        (class_attr : ContentUnit -> string -> option pyobj)
        (db : Database) :
  (r <- cast subclasses class_attr db stray_unit ;;
   cast_again subclasses class_attr db r)%except
  = Raise AttributeError
  /\ (r <- cast subclasses class_attr db stray_unit ;;
      cast_again subclasses class_attr db r)%except
     <> cast subclasses class_attr db stray_unit.
Proof. split; [reflexivity | discriminate]. Qed.

(** *** save *)

Section SaveFacts.

Variable digest_hex : string -> list byte -> string.
Variable subclasses : list ModelClass.
Variable class_attr : ContentUnit -> string -> option pyobj.
Variable unit_str : ContentUnit -> string.
Variable namedtuple_accepts : list string -> bool.

Local Abbreviation save :=
  (save digest_hex subclasses class_attr unit_str namedtuple_accepts).

(** A discriminator that is set is not assigned by [save]. *)
Lemma save_keeps_set_type self db :
  content_type self <> "" ->
  content_type (snd (save self db)) = content_type self.
Proof.
  intros H. unfold Identity.save.
  apply String.eqb_neq in H. rewrite H.
  destruct (hash_key _ _ _ _ _ db self None); reflexivity.
Qed.

(** A fresh instance of [ContentUnit] itself is rejected, and is left
    with the name of the master model as its discriminator. *)
Lemma save_rejects_fresh_master self db :
  content_type self = "" ->
  _get_content_type self = model_name ContentUnit_class ->
  save self db
  = (Raise (Exception "Do not save ContentUnit instances directly."),
     with_content_type self (model_name ContentUnit_class)).
Proof.
  intros H1 H2. unfold Identity.save. rewrite H1, H2. reflexivity.
Qed.

(** With the name of the master model already in [content_type] the
    check is not reached: the outcome is that of the parent [save]. *)
Lemma save_skips_check_when_set self db d :
  content_type self = model_name ContentUnit_class ->
  hash_key digest_hex subclasses class_attr unit_str namedtuple_accepts db self None
  = Ok d ->
  save self db = (Model_save (with_key_digest self d) db, with_key_digest self d).
Proof.
  intros H1 H2. unfold Identity.save. rewrite H1.
  change (model_name ContentUnit_class =? "") with false.
  cbv beta iota zeta. now rewrite H2.
Qed.

End SaveFacts.

(** C4, at an instance of [ContentUnit] itself: the first [save] is
    rejected but leaves ["contentunit"] in [content_type]; saving the
    same instance again is accepted and stores a row whose discriminator
    is the name of the master model. *)
Theorem save_untyped_unit_second_time :
  let save := save toy_digest installed no_class_attr uuid_str accept_all in
  let first := save untyped_unit empty_db in
  let second := save (snd first) empty_db in
  fst first = Raise (Exception "Do not save ContentUnit instances directly.")
  /\ content_type (snd first) = model_name ContentUnit_class
  /\ exists db, fst second = Ok db
       /\ contentunit_rows db
          = [ {| row_uuid := "u-2"; row_content_type := "contentunit";
                 row_key_digest := toy_digest "sha256" (encode_utf8 "pku-2") |} ].
Proof.
  repeat split. eexists. split; reflexivity.
Qed.

End IdentityFacts.

(** ** Membership of content units in repositories *)

Section MembershipFacts.
Import Membership.

Lemma existsb_map_same {A} (p : A -> bool) (f : A -> A) (l : list A) :
  (forall x, p (f x) = p x) -> existsb p (map f l) = existsb p l.
Proof.
  intros H. induction l as [|x l IH]; simpl; [reflexivity|].
  now rewrite H, IH.
Qed.

Lemma is_repository_stamp_added pk pk' now row :
  is_repository pk (stamp_added pk' now row) = is_repository pk row.
Proof. unfold stamp_added. now destruct (is_repository pk' row). Qed.

Lemma is_repository_stamp_removed pk pk' now row :
  is_repository pk (stamp_removed pk' now row) = is_repository pk row.
Proof. unfold stamp_removed. now destruct (is_repository pk' row). Qed.

(** [units_changed] with action ['save'], written out. *)
Lemma units_changed_save (repository : Repository) (w : World) :
  units_changed repository "save" w
  = (if existsb (is_repository (uuid repository)) (repositories (db w))
     then Ok tt else Raise DatabaseError,
     with_last_unit_added repository (Some (clock w)),
     {| db := {| repositories :=
                   map (stamp_added (uuid repository) (clock w))
                       (repositories (db w));
                 content_units := content_units (db w);
                 memberships := memberships (db w) |};
        clock := (clock w + 1)%Z;
        statements := statements w
                      ++ [UpdateRepository (uuid repository) ["last_unit_added"]] |}).
Proof.
  unfold units_changed, Repository_save. simpl.
  destruct (existsb _ (repositories (db w))); reflexivity.
Qed.

(** [units_changed] with action ['delete'], written out. *)
Lemma units_changed_delete (repository : Repository) (w : World) :
  units_changed repository "delete" w
  = (if existsb (is_repository (uuid repository)) (repositories (db w))
     then Ok tt else Raise DatabaseError,
     with_last_unit_removed repository (Some (clock w)),
     {| db := {| repositories :=
                   map (stamp_removed (uuid repository) (clock w))
                       (repositories (db w));
                 content_units := content_units (db w);
                 memberships := memberships (db w) |};
        clock := (clock w + 1)%Z;
        statements := statements w
                      ++ [UpdateRepository (uuid repository) ["last_unit_removed"]] |}).
Proof.
  unfold units_changed, Repository_save. simpl.
  destruct (existsb _ (repositories (db w))); reflexivity.
Qed.

(** C10.  The handler of a membership create sets [last_unit_added], on
    the instance and in the stored row of the repository, and nothing
    else: [last_unit_removed], [slug], [display_name], [description] and
    the primary key stay, as do all other rows and tables.  The handler
    of a membership delete does the same with [last_unit_removed]. *)
Theorem units_changed_writes_one_timestamp (repository : Repository) (w : World) :
  (let '(_, repository', w') := units_changed repository "save" w in
   repository'
   = {| uuid := uuid repository; slug := slug repository;
        display_name := display_name repository;
        description := description repository;
        last_unit_added := Some (clock w);
        last_unit_removed := last_unit_removed repository |}
   /\ repositories (db w')
      = map (fun row =>
               if uuid row =? uuid repository
               then {| uuid := uuid row; slug := slug row;
                       display_name := display_name row;
                       description := description row;
                       last_unit_added := Some (clock w);
                       last_unit_removed := last_unit_removed row |}
               else row)
            (repositories (db w))
   /\ memberships (db w') = memberships (db w)
   /\ content_units (db w') = content_units (db w))
  /\
  (let '(_, repository', w') := units_changed repository "delete" w in
   repository'
   = {| uuid := uuid repository; slug := slug repository;
        display_name := display_name repository;
        description := description repository;
        last_unit_added := last_unit_added repository;
        last_unit_removed := Some (clock w) |}
   /\ repositories (db w')
      = map (fun row =>
               if uuid row =? uuid repository
               then {| uuid := uuid row; slug := slug row;
                       display_name := display_name row;
                       description := description row;
                       last_unit_added := last_unit_added row;
                       last_unit_removed := Some (clock w) |}
               else row)
            (repositories (db w))
   /\ memberships (db w') = memberships (db w)
   /\ content_units (db w') = content_units (db w)).
Proof.
  rewrite units_changed_save, units_changed_delete. simpl.
  repeat split; reflexivity.
Qed.

(** [create], written out: the handler runs and writes the timestamp,
    then the row is inserted or refused. *)
Lemma create_unfolded (self : Repository) (unit : string) (w : World) :
  let self' := with_last_unit_added self (Some (clock w)) in
  let stamped :=
    map (stamp_added (uuid self) (clock w)) (repositories (db w)) in
  let m := {| repository := uuid self; content_unit := unit;
              created := (clock w + 1)%Z; updated := (clock w + 1 + 1)%Z |} in
  let trace := (statements w ++ [UpdateRepository (uuid self) ["last_unit_added"]])
               ++ [InsertMembership (uuid self) unit] in
  create self unit w
  = if existsb (is_repository (uuid self)) (repositories (db w)) then
      if existsb (String.eqb unit) (content_units (db w))
         && negb (existsb (is_pair (uuid self) unit) (memberships (db w)))
      then (Ok m, self',
            {| db := {| repositories := stamped;
                        content_units := content_units (db w);
                        memberships := memberships (db w) ++ [m] |};
               clock := (clock w + 1 + 1 + 1)%Z; statements := trace |})
      else (Raise IntegrityError, self',
            {| db := {| repositories := stamped;
                        content_units := content_units (db w);
                        memberships := memberships (db w) |};
               clock := (clock w + 1 + 1 + 1)%Z; statements := trace |})
    else (Raise DatabaseError, self',
          {| db := {| repositories := stamped;
                      content_units := content_units (db w);
                      memberships := memberships (db w) |};
             clock := (clock w + 1)%Z;
             statements := statements w
                           ++ [UpdateRepository (uuid self) ["last_unit_added"]] |}).
Proof.
  intros self' stamped m trace. unfold create, units_saved.
  rewrite units_changed_save.
  destruct (existsb (is_repository (uuid self)) (repositories (db w))) eqn:E;
    [|reflexivity].
  unfold insert. simpl.
  rewrite existsb_map_same by (intros; apply is_repository_stamp_added).
  rewrite E. simpl.
  destruct (existsb (String.eqb unit) (content_units (db w))); simpl; [|reflexivity].
  destruct (existsb (is_pair (uuid self) unit) (memberships (db w)));
    reflexivity.
Qed.

Lemma absent_pair_not_found repo unit (ms : list RepositoryContentUnit) :
  filter (is_pair repo unit) ms = [] -> existsb (is_pair repo unit) ms = false.
Proof.
  intros H. destruct (existsb _ ms) eqn:E; [|reflexivity].
  apply existsb_exists in E as [m [Hin Hm]].
  now rewrite (filter_nil_none _ _ H m Hin) in Hm.
Qed.

Lemma timestamp_writes_app pk (a b : list Statement) :
  timestamp_writes pk (a ++ b) = timestamp_writes pk a + timestamp_writes pk b.
Proof. unfold timestamp_writes. now rewrite filter_app, length_app. Qed.

(** C2.  For a stored repository and a stored unit that are not yet
    associated: [add_units] called twice succeeds both times, the join
    table then holds exactly one row for the pair, the first call writes
    [last_unit_added] once (before its insert), and the second call
    writes nothing: it leaves the instance, the tables, the clock and the
    list of statements as they were. *)
Theorem add_units_twice_one_row_one_timestamp
        (self : Repository) (unit : string) (w : World) :
  existsb (is_repository (uuid self)) (repositories (db w)) = true ->
  existsb (String.eqb unit) (content_units (db w)) = true ->
  filter (is_pair (uuid self) unit) (memberships (db w)) = [] ->
  exists self1 w1,
    add_units self [unit] w = (Ok tt, self1, w1)
    /\ add_units self1 [unit] w1 = (Ok tt, self1, w1)
    /\ List.length (filter (is_pair (uuid self) unit) (memberships (db w1))) = 1
    /\ statements w1
       = statements w ++ [UpdateRepository (uuid self) ["last_unit_added"];
                          InsertMembership (uuid self) unit]
    /\ timestamp_writes (uuid self) (statements w1)
       = timestamp_writes (uuid self) (statements w) + 1
    /\ last_unit_added self1 = Some (clock w)
    /\ repositories (db w1)
       = map (stamp_added (uuid self) (clock w)) (repositories (db w)).
Proof.
  intros Hrepo Hunit Habs.
  unfold add_units at 1, get_or_create, get. rewrite Habs.
  rewrite create_unfolded, Hrepo, Hunit, (absent_pair_not_found _ _ _ Habs).
  simpl. eexists. eexists. split; [reflexivity|].
  assert (Hsel : is_pair (uuid self) unit
                   {| repository := uuid self; content_unit := unit;
                      created := (clock w + 1)%Z;
                      updated := (clock w + 1 + 1)%Z |} = true).
  { unfold is_pair. simpl. now rewrite !String.eqb_refl. }
  repeat split.
  - unfold add_units, get_or_create, get. simpl.
    rewrite filter_app, Habs. simpl. now rewrite Hsel.
  - simpl. rewrite filter_app, Habs. simpl. now rewrite Hsel.
  - simpl. now rewrite <- app_assoc.
  - simpl. rewrite !timestamp_writes_app. unfold timestamp_writes at 2 3. simpl.
    rewrite String.eqb_refl. simpl. lia.
Qed.

Lemma add_units_twice_one_row_one_timestamp_witness :
  exists self1 w1,
    add_units demo ["u1"] demo_world = (Ok tt, self1, w1)
    /\ add_units self1 ["u1"] w1 = (Ok tt, self1, w1)
    /\ List.length (filter (is_pair "r1" "u1") (memberships (db w1))) = 1
    /\ statements w1
       = [UpdateRepository "r1" ["last_unit_added"]; InsertMembership "r1" "u1"]
    /\ timestamp_writes "r1" (statements w1) = 1
    /\ last_unit_added self1 = Some 100%Z
    /\ repositories (db w1) = map (stamp_added "r1" 100) [demo].
Proof.
  apply (add_units_twice_one_row_one_timestamp demo "u1" demo_world);
    reflexivity.
Defined.

(** *** Order and atomicity *)

Lemma get_depends_on_db repo unit (w w' : World) :
  db w' = db w -> get repo unit w' = get repo unit w.
Proof. intros H. unfold get. now rewrite H. Qed.

(** An [add_units] of one unit that raises leaves the tables as they
    were. *)
Lemma get_or_create_raise_keeps_db self unit w e self' w' :
  get_or_create self unit w = (Raise e, self', w') -> db w' = db w.
Proof.
  unfold get_or_create.
  destruct (get (uuid self) unit w) as [m|e0] eqn:G; [discriminate|].
  destruct e0; try (intros H; inversion H; reflexivity).
  rewrite create_unfolded.
  destruct (existsb (is_repository (uuid self)) (repositories (db w))).
  - destruct (_ && _).
    + discriminate.
    + rewrite (get_depends_on_db _ _ w) by reflexivity. rewrite G.
      intros H; inversion H; reflexivity.
  - intros H; inversion H; reflexivity.
Qed.

(** A successful [get_or_create] that found no row wrote the timestamp
    and then the row. *)
Lemma get_or_create_inserts self unit w r self' w' :
  get (uuid self) unit w = Raise DoesNotExist ->
  get_or_create self unit w = (Ok r, self', w') ->
  statements w'
  = statements w ++ [UpdateRepository (uuid self) ["last_unit_added"];
                     InsertMembership (uuid self) unit]
  /\ memberships (db w')
     = memberships (db w)
       ++ [ {| repository := uuid self; content_unit := unit;
               created := (clock w + 1)%Z; updated := (clock w + 1 + 1)%Z |} ]
  /\ repositories (db w')
     = map (stamp_added (uuid self) (clock w)) (repositories (db w)).
Proof.
  intros G. unfold get_or_create. rewrite G, create_unfolded.
  destruct (existsb (is_repository (uuid self)) (repositories (db w))).
  - destruct (_ && _).
    + intros H; inversion H; subst. simpl. now rewrite <- app_assoc.
    + rewrite (get_depends_on_db _ _ w) by reflexivity. rewrite G. discriminate.
  - discriminate.
Qed.

(** When every [post_delete] handler succeeds, each wrote
    [last_unit_removed] of the repository of its row, and the join table
    was not touched again. *)
Lemma send_post_delete_ok rows w u w' :
  send_post_delete rows w = (Ok u, w') ->
  statements w'
  = statements w
    ++ map (fun m => UpdateRepository (repository m) ["last_unit_removed"]) rows
  /\ memberships (db w') = memberships (db w)
  /\ content_units (db w') = content_units (db w).
Proof.
  revert w. induction rows as [|m rows IH]; intros w; simpl.
  - intros H; inversion H; subst. now rewrite app_nil_r.
  - unfold units_deleted.
    destruct (find _ (repositories (db w))) as [r|] eqn:F; [|discriminate].
    rewrite units_changed_delete.
    apply find_some in F as [_ F]. unfold is_repository in F.
    apply String.eqb_eq in F.
    destruct (existsb _ (repositories (db w))); [|discriminate].
    intros H. apply IH in H as [H1 [H2 H3]]. simpl in *.
    rewrite H1, H2, H3, F. now rewrite <- app_assoc.
Qed.

(** C3, as the code has it.  A membership remove deletes the row and
    then writes [last_unit_removed]; a membership add writes
    [last_unit_added] first, in the [pre_save] handler, and inserts the
    row after it.  On the stored tables each operation is all or nothing:
    when it raises, the join table and the rows of the repositories are
    what they were before the call. *)
Theorem membership_change_order_and_atomicity
        (self : Repository) (unit : string) (w : World) :
  (let '(outcome, _, w') := add_units self [unit] w in
   match outcome with
   | Raise _ => db w' = db w
   | Ok _ =>
       get (uuid self) unit w = Raise DoesNotExist ->
       statements w'
       = statements w ++ [UpdateRepository (uuid self) ["last_unit_added"];
                          InsertMembership (uuid self) unit]
       /\ memberships (db w')
          = memberships (db w)
            ++ [ {| repository := uuid self; content_unit := unit;
                    created := (clock w + 1)%Z; updated := (clock w + 1 + 1)%Z |} ]
       /\ repositories (db w')
          = map (stamp_added (uuid self) (clock w)) (repositories (db w))
   end)
  /\
  (let rows := filter (selected self [unit]) (memberships (db w)) in
   let '(outcome, w') := remove_units self [unit] w in
   match outcome with
   | Raise _ => db w' = db w
   | Ok _ =>
       rows <> [] ->
       statements w'
       = statements w
         ++ DeleteMemberships rows
         :: map (fun _ => UpdateRepository (uuid self) ["last_unit_removed"]) rows
       /\ memberships (db w')
          = filter (fun m => negb (selected self [unit] m)) (memberships (db w))
   end).
Proof.
  split.
  - unfold add_units.
    destruct (get_or_create self unit w) as [[outcome self'] w'] eqn:G.
    destruct outcome as [r|e].
    + intros Hget. eapply get_or_create_inserts; eauto.
    + eapply get_or_create_raise_keeps_db; eauto.
  - intros rows. unfold remove_units. fold rows.
    destruct rows as [|m rows'] eqn:R.
    + intros H. now contradiction H.
    + rewrite <- R.
      destruct (send_post_delete rows _) as [outcome w2] eqn:S.
      destruct outcome as [u|e]; [|reflexivity].
      intros _. apply send_post_delete_ok in S as [H1 [H2 H3]]. simpl in *.
      rewrite H1, H2. split; [|reflexivity].
      rewrite <- app_assoc. simpl. do 2 f_equal.
      apply map_ext_in. intros x Hx. subst rows.
      apply filter_In in Hx as [_ Hx]. unfold selected in Hx.
      apply andb_true_iff in Hx as [Hx _]. apply String.eqb_eq in Hx.
      now rewrite Hx.
Qed.

Lemma membership_change_order_and_atomicity_witness :
  get "r1" "u1" demo_world = Raise DoesNotExist
  /\ statements (snd (add_units demo ["u1"] demo_world))
     = [UpdateRepository "r1" ["last_unit_added"]; InsertMembership "r1" "u1"]
  /\ memberships (db (snd (add_units demo ["u1"] demo_world)))
     = [ {| repository := "r1"; content_unit := "u1";
            created := 101; updated := 102 |} ]
  /\ repositories (db (snd (add_units demo ["u1"] demo_world)))
     = map (stamp_added "r1" 100) [demo].
Proof.
  split; [reflexivity|].
  exact (proj1 (membership_change_order_and_atomicity demo "u1" demo_world)
               eq_refl).
Defined.

(** C3 as stated fails on an add: the statements of a successful add are
    the update of the repository and then the insert, so the row is not
    written before the timestamp; and when the insert is refused (here
    the unit is not stored) the tables are rolled back but the instance
    of the repository keeps the new [last_unit_added]. *)
Lemma add_units_writes_timestamp_first :
  (exists self' w',
      add_units demo ["u1"] demo_world = (Ok tt, self', w')
      /\ statements w'
         = [UpdateRepository "r1" ["last_unit_added"]; InsertMembership "r1" "u1"]
      /\ ~ row_then_timestamp (statements w'))
  /\ (exists self' w',
         add_units demo ["u9"] demo_world = (Raise IntegrityError, self', w')
         /\ db w' = db demo_world
         /\ last_unit_added self' = Some 100%Z
         /\ last_unit_added self' <> last_unit_added demo).
Proof.
  split.
  - eexists. eexists. split; [reflexivity|]. split; [reflexivity|].
    simpl. intros (before & between & after & repo & unit & fields & H).
    destruct before as [|s1 [|s2 before]]; simpl in H.
    + discriminate.
    + inversion H as [[H1 H2 H3 H4]]. destruct between; discriminate.
    + inversion H as [[H1 H2 H3]]. destruct before; discriminate.
  - eexists. eexists. split; [reflexivity|].
    repeat split. discriminate.
Qed.

End MembershipFacts.

(** * Further properties *)

(** ** The mapping: invariants, coercion, isolation *)

Section MappingFacts.
Import AttributeStore.

Lemma write_table_other (db : Database) (r r' : Role) (t : Table) :
  r' <> r -> write_table db r t r' = db r'.
Proof.
  intros H. unfold write_table.
  destruct r, r'; simpl; try reflexivity; now contradiction H.
Qed.

(** A set writes to the table of its role only. *)
Lemma setitem_other_tables m k v db db' r :
  __setitem__ m k v db = Ok db' -> r <> model m -> db' r = db r.
Proof.
  intros H Hr. rewrite (setitem_of_text m k v db (setitem_ok_not_none _ _ _ _ _ H)) in H.
  destruct (manager_get m k db) as [item|e].
  - inversion H; subst. unfold item_save.
    destruct (existsb _ (db (model m))); now apply write_table_other.
  - destruct e; try discriminate. unfold manager_create in H.
    destruct (existsb _ (db (model m))); [discriminate|].
    inversion H; subst. now apply write_table_other.
Qed.

(** The table after a set: a new row at the end when the key had none,
    the value of its row replaced when it had one. *)
Lemma setitem_table m k v db db' :
  constraints (db (model m)) ->
  __setitem__ m k v db = Ok db' ->
  (manager_filter m k db = []
   /\ db' (model m) = db (model m) ++ [new_row m k (val_str v) (db (model m))])
  \/ (exists item,
         manager_filter m k db = [item]
         /\ In item (db (model m))
         /\ db' (model m)
            = map (fun row => if (id row =? id item)%nat
                              then set_value item (val_str v) else row)
                  (db (model m))).
Proof.
  intros Hc Hset.
  rewrite (setitem_of_text m k v db (setitem_ok_not_none _ _ _ _ _ Hset)) in Hset.
  revert Hset.
  destruct (manager_get_cases m k db Hc) as [[Hf Hg] | [item [Hf Hg]]]; rewrite Hg.
  - intros H. left. split; [assumption|]. unfold manager_create in H.
    destruct (existsb _ (db (model m))); [discriminate|].
    inversion H; subst. now rewrite write_table_same.
  - intros H. inversion H; subst. right. exists item.
    assert (Hin : In item (db (model m))).
    { assert (Hi : In item (manager_filter m k db)) by (rewrite Hf; now left).
      unfold manager_filter in Hi. now apply filter_In in Hi. }
    repeat split; auto. unfold item_save.
    destruct (existsb _ (db (model m))) eqn:E.
    + now rewrite write_table_same.
    + exfalso. rewrite <- not_true_iff_false in E. apply E.
      apply existsb_exists. exists item. split; [assumption|].
      simpl. apply Nat.eqb_refl.
Qed.

(** X1.  On a table that satisfies its constraints an assignment of
    any value other than [None] never raises; it keeps the constraints,
    leaves the tables of the other roles as they are, and the value read
    back is the text of the value assigned ([str(value)]), not the
    value.  An assignment of [None] raises [IntegrityError], whether the
    key has a row or not, and stores nothing. *)
Theorem setitem_total_coercing (m : GenericKeyValueManager) (k : string)
        (v : pyval) (db : Database) :
  constraints (db (model m)) ->
  (v <> VNone ->
   exists db',
     __setitem__ m k v db = Ok db'
     /\ constraints (db' (model m))
     /\ (forall r, r <> model m -> db' r = db r)
     /\ __getitem__ m k db' = Ok (val_str v))
  /\ __setitem__ m k VNone db = Raise IntegrityError.
Proof.
  intros Hc. split.
  - intros Hv.
    destruct (setitem_stores m k v db Hc Hv) as [db' [H [Hc' [Hg _]]]].
    exists db'. repeat split; try apply Hc'; auto.
    intros r Hr. eapply setitem_other_tables; eauto.
  - unfold __setitem__.
    destruct (manager_get_cases m k db Hc) as [[_ Hg] | [item [_ Hg]]];
      now rewrite Hg.
Qed.

Lemma setitem_total_coercing_witness :
  (exists db',
      __setitem__ notes_of_demo "n" (VInt 5) demo_notes = Ok db'
      /\ constraints (db' Notes)
      /\ (forall r, r <> Notes -> db' r = demo_notes r)
      /\ __getitem__ notes_of_demo "n" db' = Ok "5")
  /\ __setitem__ notes_of_demo "k" VNone demo_notes = Raise IntegrityError.
Proof.
  assert (Hc : constraints (demo_notes (model notes_of_demo)))
    by (split; simpl; repeat constructor; simpl; intuition discriminate).
  destruct (setitem_total_coercing notes_of_demo "n" (VInt 5) demo_notes Hc)
    as [H1 _].
  split; [apply H1; discriminate|].
  exact (proj2 (setitem_total_coercing notes_of_demo "k" VNone demo_notes Hc)).
Defined.

Lemma selects_by_entry m k a b :
  entry a = entry b -> selects m k a = selects m k b.
Proof.
  intros H. destruct (selects m k b) eqn:E.
  - apply selects_entry. apply selects_entry in E. congruence.
  - destruct (selects m k a) eqn:E'; [|reflexivity].
    apply selects_entry in E'. rewrite H in E'.
    apply selects_entry in E'. congruence.
Qed.

Lemma filter_map_id_on {A} (p : A -> bool) (f : A -> A) (l : list A) :
  (forall x, In x l -> p (f x) = p x) ->
  (forall x, In x l -> p x = true -> f x = x) ->
  filter p (map f l) = filter p l.
Proof.
  intros H1 H2. rewrite filter_map_in by assumption.
  induction l as [|x l IH]; simpl; [reflexivity|].
  destruct (p x) eqn:E; simpl.
  - rewrite (H2 x (or_introl eq_refl) E). f_equal.
    apply IH; intros; [apply H1 | apply H2]; simpl; auto.
  - apply IH; intros; [apply H1 | apply H2]; simpl; auto.
Qed.

(** X2.  An assignment to a key of one owner does not change what any
    other key, owner or role reads, missing keys included. *)
Theorem setitem_isolated (m m' : GenericKeyValueManager) (k k' : string)
        (v : pyval) (db db' : Database) :
  constraints (db (model m)) ->
  __setitem__ m k v db = Ok db' ->
  model m' <> model m
  \/ (k', owner_type m', owner_id m') <> (k, owner_type m, owner_id m) ->
  __getitem__ m' k' db' = __getitem__ m' k' db.
Proof.
  intros Hc Hset Hother.
  assert (Hf : manager_filter m' k' db' = manager_filter m' k' db);
    [|unfold __getitem__, manager_get; now rewrite Hf].
  unfold manager_filter.
  destruct (role_eqb (model m') (model m)) eqn:Er.
  2:{ rewrite (setitem_other_tables _ _ _ _ _ (model m') Hset); [reflexivity|].
      intros Heq. rewrite Heq, role_eqb_refl in Er. discriminate. }
  assert (Hm : model m' = model m) by (destruct (model m'), (model m); simpl in Er; congruence).
  destruct Hother as [Hne | Hne]; [contradiction|].
  rewrite Hm.
  destruct (setitem_table m k v db db' Hc Hset)
    as [[Habs Ht] | [item [Hf [Hin Ht]]]]; rewrite Ht.
  - rewrite filter_app. simpl.
    destruct (selects m' k' (new_row m k (val_str v) (db (model m)))) eqn:E.
    + apply selects_entry in E. unfold entry, new_row in E. simpl in E.
      exfalso. apply Hne. congruence.
    + now rewrite app_nil_r.
  - destruct Hc as [Hid Hu].
    assert (Hsel : selects m k item = true).
    { assert (Hi : In item (manager_filter m k db)) by (rewrite Hf; now left).
      unfold manager_filter in Hi. now apply filter_In in Hi. }
    apply filter_map_id_on.
    + intros row Hr. destruct (id row =? id item)%nat eqn:E; [|reflexivity].
      apply Nat.eqb_eq in E.
      rewrite (NoDup_map_eq id _ row item Hid Hr Hin E).
      now apply selects_by_entry.
    + intros row Hr Hs. destruct (id row =? id item)%nat eqn:E; [|reflexivity].
      apply Nat.eqb_eq in E.
      rewrite (NoDup_map_eq id _ row item Hid Hr Hin E) in Hs.
      apply selects_entry in Hs. apply selects_entry in Hsel.
      exfalso. apply Hne. congruence.
Qed.

Lemma setitem_isolated_witness :
  exists db',
    __setitem__ notes_of_demo "k" (VStr "new") demo_notes = Ok db'
    /\ __getitem__ {| model := Notes; owner_type := "repository"; owner_id := "r2" |}
                   "k" db'
       = Ok "other".
Proof.
  destruct (setitem_stores notes_of_demo "k" (VStr "new") demo_notes)
    as [db' [H _]].
  { split; simpl; repeat constructor; simpl; intuition discriminate. }
  { discriminate. }
  exists db'. split; [exact H|].
  rewrite (setitem_isolated notes_of_demo
             {| model := Notes; owner_type := "repository"; owner_id := "r2" |}
             "k" "k" (VStr "new") demo_notes db').
  - reflexivity.
  - split; simpl; repeat constructor; simpl; intuition discriminate.
  - exact H.
  - right. discriminate.
Defined.

Lemma filter_filter_neg {A} (p q : A -> bool) (l : list A) :
  (forall x, In x l -> p x = true -> q x = false) ->
  filter p (filter (fun x => negb (q x)) l) = filter p l.
Proof.
  intros H. induction l as [|x l IH]; simpl; [reflexivity|].
  destruct (q x) eqn:Q; simpl.
  - destruct (p x) eqn:P.
    + rewrite (H x (or_introl eq_refl) P) in Q. discriminate.
    + apply IH. intros; apply H; simpl; auto.
  - destruct (p x); [f_equal|]; apply IH; intros; apply H; simpl; auto.
Qed.

Lemma filter_all {A} (p : A -> bool) (l : list A) :
  (forall x, In x l -> p x = true) -> filter p l = l.
Proof.
  intros H. induction l as [|x l IH]; simpl; [reflexivity|].
  rewrite (H x (or_introl eq_refl)). f_equal. apply IH.
  intros; apply H; simpl; auto.
Qed.

(** X3.  A delete removes the rows of its key and owner and no other:
    every other key, owner and role reads as before; deleting a key that
    has no row raises nothing and leaves the table as it is; and the
    deleted key then reads as missing. *)
Theorem delitem_only_its_key (m m' : GenericKeyValueManager) (k k' : string)
        (db : Database) :
  (model m' <> model m
   \/ (k', owner_type m', owner_id m') <> (k, owner_type m, owner_id m) ->
   __getitem__ m' k' (__delitem__ m k db) = __getitem__ m' k' db)
  /\ (manager_filter m k db = [] ->
      __delitem__ m k db (model m) = db (model m))
  /\ __getitem__ m k (__delitem__ m k db) = Raise DoesNotExist
  /\ List.length (__delitem__ m k db (model m))
     + List.length (manager_filter m k db)
     = List.length (db (model m)).
Proof.
  repeat split.
  - intros Hother.
    assert (Hf : manager_filter m' k' (__delitem__ m k db) = manager_filter m' k' db);
      [|unfold __getitem__, manager_get; now rewrite Hf].
    unfold manager_filter, __delitem__.
    destruct (role_eqb (model m') (model m)) eqn:Er.
    2:{ rewrite write_table_other; [reflexivity|].
        intros Heq. rewrite Heq, role_eqb_refl in Er. discriminate. }
    assert (Hm : model m' = model m)
      by (destruct (model m'), (model m); simpl in Er; congruence).
    destruct Hother as [Hne | Hne]; [contradiction|].
    rewrite Hm, write_table_same. apply filter_filter_neg.
    intros row _ Hs. destruct (selects m k row) eqn:E; [|reflexivity].
    apply selects_entry in Hs. apply selects_entry in E.
    exfalso. apply Hne. congruence.
  - intros Habs. unfold __delitem__. rewrite write_table_same.
    apply filter_all. intros row Hr.
    unfold manager_filter in Habs.
    now rewrite (filter_nil_none _ _ Habs row Hr).
  - unfold __getitem__, manager_get. now rewrite delitem_removes.
  - unfold __delitem__, manager_filter. rewrite write_table_same.
    induction (db (model m)) as [|row t IH]; simpl; [reflexivity|].
    destruct (selects m k row); simpl; lia.
Qed.

Lemma delitem_only_its_key_witness :
  __getitem__ {| model := Notes; owner_type := "repository"; owner_id := "r2" |}
              "k" (__delitem__ notes_of_demo "k" demo_notes)
  = Ok "other"
  /\ __delitem__ notes_of_demo "absent" demo_notes Notes = demo_notes Notes.
Proof.
  pose proof (delitem_only_its_key notes_of_demo
                {| model := Notes; owner_type := "repository"; owner_id := "r2" |}
                "k" "k" demo_notes) as [H1 _].
  pose proof (delitem_only_its_key notes_of_demo notes_of_demo
                "absent" "absent" demo_notes) as [_ [H2 _]].
  split.
  - rewrite H1; [reflexivity | right; discriminate].
  - apply H2. reflexivity.
Defined.

Lemma owned_keys_distinct (m : GenericKeyValueManager) (t : Table) :
  NoDup (map entry t) -> NoDup (map key (filter (owned_by m) t)).
Proof.
  induction t as [|row t IH]; simpl; intros Hnd; [constructor|].
  inversion Hnd as [|? ? Hnot Hnd']; subst.
  destruct (owned_by m row) eqn:E; [|auto].
  simpl. constructor; [|auto].
  intros Hin. apply in_map_iff in Hin as [y [Hk Hy]].
  apply filter_In in Hy as [Hy Ho]. apply Hnot.
  apply in_map_iff. exists y. split; [|assumption].
  unfold owned_by in *. apply andb_true_iff in E as [E1 E2].
  apply andb_true_iff in Ho as [O1 O2].
  apply String.eqb_eq in E1, E2, O1, O2. unfold entry. congruence.
Qed.

Lemma key_listed_iff_selected m k db :
  In k (__iter__ m db) <-> manager_filter m k db <> [].
Proof.
  unfold __iter__, manager_all, manager_filter. split.
  - intros Hin. apply in_map_iff in Hin as [row [Hk Hr]].
    apply filter_In in Hr as [Hr Ho]. intros Hnil.
    pose proof (filter_nil_none _ _ Hnil row Hr) as Hs.
    unfold selects, has_key in Hs. rewrite Ho, Hk, String.eqb_refl in Hs.
    discriminate.
  - intros Hne. destruct (filter (selects m k) (db (model m))) as [|row l] eqn:F;
      [contradiction|].
    assert (Hr : In row (filter (selects m k) (db (model m))))
      by (rewrite F; now left).
    apply filter_In in Hr as [Hr Hs]. unfold selects in Hs.
    apply andb_true_iff in Hs as [Ho Hk]. unfold has_key in Hk.
    apply String.eqb_eq in Hk. apply in_map_iff. exists row.
    split; [assumption|]. now apply filter_In.
Qed.

(** X4.  Iterating over the mapping of an owner yields each of its keys
    once, and its length is the number of keys yielded; after an
    assignment the key is among them, and the length has grown by one
    when the key was new and not at all when it was there. *)
Theorem iter_len_after_setitem (m : GenericKeyValueManager) (k : string)
        (v : pyval) (db db' : Database) :
  constraints (db (model m)) ->
  __setitem__ m k v db = Ok db' ->
  NoDup (__iter__ m db)
  /\ __len__ m db = List.length (__iter__ m db)
  /\ In k (__iter__ m db')
  /\ (In k (__iter__ m db) -> __len__ m db' = __len__ m db)
  /\ (~ In k (__iter__ m db) -> __len__ m db' = S (__len__ m db)).
Proof.
  intros Hc Hset.
  assert (Hsel : selects m k (new_row m k (val_str v) (db (model m))) = true)
    by (apply selects_entry; reflexivity).
  assert (Hown : owned_by m (new_row m k (val_str v) (db (model m))) = true).
  { unfold selects in Hsel. now apply andb_true_iff in Hsel as [Ho _]. }
  split; [apply owned_keys_distinct, Hc|].
  split; [unfold __len__, __iter__; now rewrite length_map|].
  destruct (setitem_table m k v db db' Hc Hset)
    as [[Habs Ht] | [item [Hf [Hin Ht]]]].
  - assert (Hall : manager_all m db'
                   = manager_all m db ++ [new_row m k (val_str v) (db (model m))]).
    { unfold manager_all. rewrite Ht, filter_app. simpl. now rewrite Hown. }
    repeat split.
    + unfold __iter__. rewrite Hall, map_app. apply in_or_app. right. now left.
    + intros Hk. apply key_listed_iff_selected in Hk. contradiction.
    + intros _. unfold __len__. rewrite Hall, length_app. simpl. lia.
  - destruct Hc as [Hid Hu].
    assert (Hall : manager_all m db'
                   = map (fun row => if (id row =? id item)%nat
                                     then set_value item (val_str v) else row)
                         (manager_all m db)).
    { unfold manager_all. rewrite Ht. apply filter_map_in.
      intros row Hr. destruct (id row =? id item)%nat eqn:E; [|reflexivity].
      apply Nat.eqb_eq in E.
      now rewrite (NoDup_map_eq id _ row item Hid Hr Hin E). }
    repeat split.
    + apply key_listed_iff_selected.
      destruct (setitem_stores m k v db (conj Hid Hu)
                  (setitem_ok_not_none _ _ _ _ _ Hset))
        as [db2 [H2 [_ [_ [Hl _]]]]].
      rewrite Hset in H2. inversion H2; subst db2.
      intros Hnil. rewrite Hnil in Hl. discriminate.
    + intros _. unfold __len__. now rewrite Hall, length_map.
    + intros Hk. exfalso. apply Hk. apply key_listed_iff_selected.
      rewrite Hf. discriminate.
Qed.

Lemma iter_len_after_setitem_witness :
  exists db',
    __setitem__ notes_of_demo "n" (VStr "x") demo_notes = Ok db'
    /\ NoDup (__iter__ notes_of_demo demo_notes)
    /\ In "n" (__iter__ notes_of_demo db')
    /\ __len__ notes_of_demo db' = 2.
Proof.
  assert (Hc : constraints (demo_notes (model notes_of_demo)))
    by (split; simpl; repeat constructor; simpl; intuition discriminate).
  destruct (setitem_stores notes_of_demo "n" (VStr "x") demo_notes Hc
              ltac:(discriminate))
    as [db' [H _]].
  exists db'. split; [exact H|].
  destruct (iter_len_after_setitem notes_of_demo "n" (VStr "x") demo_notes db' Hc H)
    as [H1 [_ [H3 [_ H5]]]].
  repeat split; auto.
  apply H5. simpl. intuition discriminate.
Defined.

End MappingFacts.

(** ** Membership: bulk calls, round trips, refusals *)

Section MembershipMoreFacts.
Import Membership.

Lemma is_pair_spec repo unit m :
  is_pair repo unit m = true <-> pair_of m = (repo, unit).
Proof.
  unfold is_pair, pair_of. rewrite andb_true_iff, !String.eqb_eq.
  split; [intros [-> ->]; reflexivity | intros H; inversion H; auto].
Qed.

Lemma selected_single self unit m :
  selected self [unit] m = is_pair (uuid self) unit m.
Proof. unfold selected, is_pair. simpl. now rewrite orb_false_r. Qed.

Lemma unique_pairs_snoc ms m :
  unique_pairs ms ->
  existsb (is_pair (repository m) (content_unit m)) ms = false ->
  unique_pairs (ms ++ [m]).
Proof.
  unfold unique_pairs. intros Hu He. rewrite map_app. simpl.
  apply NoDup_snoc; [assumption|].
  intros Hin. apply in_map_iff in Hin as [y [Hy Hin]].
  rewrite <- not_true_iff_false in He. apply He.
  apply existsb_exists. exists y. split; [assumption|].
  now apply is_pair_spec.
Qed.

(** What one [get_or_create] does to the join table: nothing, or one new
    row for its pair when the pair had none. *)
Lemma get_or_create_memberships self unit w outcome self' w' :
  get_or_create self unit w = (outcome, self', w') ->
  uuid self' = uuid self
  /\ content_units (db w') = content_units (db w)
  /\ (forall pk, existsb (is_repository pk) (repositories (db w'))
                 = existsb (is_repository pk) (repositories (db w)))
  /\ (memberships (db w') = memberships (db w)
      \/ exists m,
           memberships (db w') = memberships (db w) ++ [m]
           /\ pair_of m = (uuid self, unit)
           /\ existsb (is_pair (uuid self) unit) (memberships (db w)) = false).
Proof.
  unfold get_or_create.
  destruct (get (uuid self) unit w) as [m|e] eqn:G.
  { intros H; inversion H; subst. auto. }
  destruct e; [| intros H; inversion H; subst; auto ..].
  rewrite create_unfolded.
  destruct (existsb (is_repository (uuid self)) (repositories (db w))).
  - destruct (existsb (String.eqb unit) (content_units (db w))); simpl.
    + destruct (existsb (is_pair (uuid self) unit) (memberships (db w))) eqn:E;
        simpl.
      * rewrite (get_depends_on_db _ _ w) by reflexivity. rewrite G.
        intros H; inversion H; subst. auto.
      * intros H; inversion H; subst. simpl. repeat split; auto.
        -- intros pk. apply existsb_map_same.
           intros; apply is_repository_stamp_added.
        -- right. eexists. repeat split.
    + rewrite (get_depends_on_db _ _ w) by reflexivity. rewrite G.
      intros H; inversion H; subst. auto.
  - intros H; inversion H; subst. auto.
Qed.

Lemma add_units_invariants (units : list string) :
  forall (self : Repository) (w : World),
    unique_pairs (memberships (db w)) ->
    let '(_, self', w') := add_units self units w in
    unique_pairs (memberships (db w'))
    /\ (forall m, In m (memberships (db w)) -> In m (memberships (db w')))
    /\ content_units (db w') = content_units (db w)
    /\ uuid self' = uuid self.
Proof.
  induction units as [|unit rest IH]; intros self w Hu; simpl; [auto|].
  destruct (get_or_create self unit w) as [[outcome self1] w1] eqn:G.
  destruct (get_or_create_memberships _ _ _ _ _ _ G) as [Hid [Hcu [_ Hms]]].
  assert (Hu1 : unique_pairs (memberships (db w1))
                /\ forall m, In m (memberships (db w)) -> In m (memberships (db w1))).
  { destruct Hms as [-> | [m [-> [Hp He]]]]; [auto|]. split.
    - apply unique_pairs_snoc; [assumption|].
      unfold pair_of in Hp. injection Hp as Hp1 Hp2. now rewrite Hp1, Hp2.
    - intros x Hx. apply in_or_app. now left. }
  destruct Hu1 as [Hu1 Hkeep].
  destruct outcome as [r|e]; [|auto].
  specialize (IH self1 w1 Hu1).
  destruct (add_units self1 rest w1) as [[o2 self2] w2].
  destruct IH as [H1 [H2 [H3 H4]]]. repeat split; auto; congruence.
Qed.

(** X5.  [add_units] keeps the unique constraint of the join table and
    removes nothing: whatever the units and whatever the outcome, the
    rows that were there are still there, no pair has two rows, and the
    table of content units is not touched. *)
Theorem add_units_keeps_unique_pairs
        (units : list string) (self : Repository) (w : World) :
  unique_pairs (memberships (db w)) ->
  unique_pairs (memberships (db (snd (add_units self units w))))
  /\ (forall m, In m (memberships (db w)) ->
                In m (memberships (db (snd (add_units self units w)))))
  /\ content_units (db (snd (add_units self units w))) = content_units (db w).
Proof.
  intros Hu. pose proof (add_units_invariants units self w Hu) as H.
  destruct (add_units self units w) as [[o s] w']. simpl. tauto.
Qed.

Lemma add_units_keeps_unique_pairs_witness :
  unique_pairs (memberships (db (snd (add_units demo ["u1"; "u9"; "u2"] busy_world))))
  /\ In {| repository := "r2"; content_unit := "u1"; created := 7; updated := 7 |}
        (memberships (db (snd (add_units demo ["u1"; "u9"; "u2"] busy_world)))).
Proof.
  destruct (add_units_keeps_unique_pairs ["u1"; "u9"; "u2"] demo busy_world)
    as [H1 [H2 _]].
  - unfold unique_pairs. simpl. repeat constructor. simpl. tauto.
  - split; [exact H1|]. apply H2. now left.
Defined.

Lemma unique_pair_filter repo unit ms :
  unique_pairs ms -> List.length (filter (is_pair repo unit) ms) <= 1.
Proof.
  unfold unique_pairs.
  induction ms as [|m ms IH]; simpl; intros Hnd; [lia|].
  inversion Hnd as [|? ? Hnot Hnd']; subst.
  destruct (is_pair repo unit m) eqn:E; [|auto].
  assert (Hnone : filter (is_pair repo unit) ms = []).
  { destruct (filter (is_pair repo unit) ms) as [|y ys] eqn:F; [reflexivity|].
    assert (Hy : In y (filter (is_pair repo unit) ms)) by (rewrite F; now left).
    apply filter_In in Hy as [Hin Hy]. exfalso. apply Hnot.
    apply is_pair_spec in E. apply is_pair_spec in Hy.
    rewrite E, <- Hy. now apply in_map. }
  rewrite Hnone. simpl. lia.
Qed.

Lemma one_row_of_pair repo unit ms m :
  unique_pairs ms -> In m ms -> pair_of m = (repo, unit) ->
  List.length (filter (is_pair repo unit) ms) = 1.
Proof.
  intros Hu Hin Hp. pose proof (unique_pair_filter repo unit ms Hu) as Hle.
  assert (Hm : In m (filter (is_pair repo unit) ms)).
  { apply filter_In. split; [assumption|]. now apply is_pair_spec. }
  destruct (filter (is_pair repo unit) ms); simpl in *; [contradiction | lia].
Qed.

(** With the repository and the unit stored and the join table
    consistent, [get_or_create] succeeds and the pair has a row. *)
Lemma get_or_create_of_stored self unit w :
  existsb (is_repository (uuid self)) (repositories (db w)) = true ->
  existsb (String.eqb unit) (content_units (db w)) = true ->
  unique_pairs (memberships (db w)) ->
  exists r self' w',
    get_or_create self unit w = (Ok r, self', w')
    /\ exists m, In m (memberships (db w')) /\ pair_of m = (uuid self, unit).
Proof.
  intros Hrepo Hunit Hu. unfold get_or_create, get.
  pose proof (unique_pair_filter (uuid self) unit _ Hu) as Hle.
  destruct (filter (is_pair (uuid self) unit) (memberships (db w)))
    as [|m [|m2 l]] eqn:F; simpl in Hle; [| |lia].
  - rewrite create_unfolded, Hrepo, Hunit, (absent_pair_not_found _ _ _ F).
    simpl. do 3 eexists. split; [reflexivity|]. simpl.
    eexists. split; [apply in_or_app; right; now left | reflexivity].
  - do 3 eexists. split; [reflexivity|]. exists m.
    assert (Hm : In m (filter (is_pair (uuid self) unit) (memberships (db w))))
      by (rewrite F; now left).
    apply filter_In in Hm as [Hin Hp]. split; [assumption|].
    now apply is_pair_spec.
Qed.

(** X6.  For a stored repository, stored units (repeated or not) and a
    join table without duplicate pairs, [add_units] succeeds and leaves
    exactly one row for each of the units. *)
Theorem add_units_of_stored_units (units : list string) :
  forall (self : Repository) (w : World),
    existsb (is_repository (uuid self)) (repositories (db w)) = true ->
    (forall u, In u units ->
               existsb (String.eqb u) (content_units (db w)) = true) ->
    unique_pairs (memberships (db w)) ->
    exists self' w',
      add_units self units w = (Ok tt, self', w')
      /\ forall u, In u units ->
           List.length (filter (is_pair (uuid self) u) (memberships (db w'))) = 1.
Proof.
  induction units as [|unit rest IH]; intros self w Hrepo Hunits Hu; simpl.
  - do 2 eexists. split; [reflexivity|]. intros u [].
  - destruct (get_or_create_of_stored self unit w Hrepo
                (Hunits unit (or_introl eq_refl)) Hu)
      as [r [self1 [w1 [G [m [Hm Hp]]]]]].
    rewrite G.
    destruct (get_or_create_memberships _ _ _ _ _ _ G) as [Hid [Hcu [Hrp Hms]]].
    assert (Hu1 : unique_pairs (memberships (db w1))).
    { destruct Hms as [-> | [x [-> [Hx He]]]]; [assumption|].
      apply unique_pairs_snoc; [assumption|].
      unfold pair_of in Hx. injection Hx as Hx1 Hx2. now rewrite Hx1, Hx2. }
    destruct (IH self1 w1) as [self2 [w2 [A Hrows]]].
    + now rewrite Hid, Hrp.
    + intros u Hin. rewrite Hcu. apply Hunits. now right.
    + assumption.
    + exists self2, w2. split; [assumption|].
      pose proof (add_units_invariants rest self1 w1 Hu1) as Hinv.
      rewrite A in Hinv. destruct Hinv as [Hu2 [Hkeep _]].
      intros u [<- | Hin].
      * apply (one_row_of_pair _ _ _ m); auto.
      * rewrite <- Hid. now apply Hrows.
Qed.

Lemma add_units_of_stored_units_witness :
  exists self' w',
    add_units demo ["u1"; "u2"; "u1"] busy_world = (Ok tt, self', w')
    /\ forall u, In u ["u1"; "u2"; "u1"] ->
         List.length (filter (is_pair "r1" u) (memberships (db w'))) = 1.
Proof.
  apply (add_units_of_stored_units ["u1"; "u2"; "u1"] demo busy_world).
  - reflexivity.
  - intros u [<- | [<- | [<- | []]]]; reflexivity.
  - unfold unique_pairs. simpl. repeat constructor. simpl. tauto.
Defined.

(** X7.  Adding a list of units is adding its parts one after the
    other: the second part is added from the instance and the world the
    first part left, and only when the first part raised nothing.  (So
    the rows of the units before a failing one stay.) *)
Theorem add_units_app (a b : list string) (self : Repository) (w : World) :
  add_units self (a ++ b) w
  = let '(outcome, self1, w1) := add_units self a w in
    match outcome with
    | Ok _ => add_units self1 b w1
    | Raise e => (Raise e, self1, w1)
    end.
Proof.
  revert self w. induction a as [|unit a IH]; intros self w; simpl.
  - reflexivity.
  - destruct (get_or_create self unit w) as [[outcome self1] w1].
    destruct outcome as [r|e]; [apply IH | reflexivity].
Qed.

Lemma filter_neg_then_pos {A} (p : A -> bool) (l : list A) :
  filter p (filter (fun x => negb (p x)) l) = [].
Proof.
  induction l as [|x l IH]; simpl; [reflexivity|].
  destruct (p x) eqn:E; simpl; [assumption|]. now rewrite E.
Qed.

Lemma pair_rows_are_selected self units u ms :
  In u units ->
  filter (selected self units) ms = [] ->
  filter (is_pair (uuid self) u) ms = [].
Proof.
  intros Hu Hnone.
  destruct (filter (is_pair (uuid self) u) ms) as [|m l] eqn:F; [reflexivity|].
  assert (Hm : In m (filter (is_pair (uuid self) u) ms)) by (rewrite F; now left).
  apply filter_In in Hm as [Hin Hp].
  pose proof (filter_nil_none _ _ Hnone m Hin) as Hs.
  unfold is_pair in Hp. apply andb_true_iff in Hp as [Hr Hc].
  unfold selected in Hs. rewrite Hr in Hs. simpl in Hs.
  rewrite <- not_true_iff_false in Hs. exfalso. apply Hs.
  apply existsb_exists. exists u. split; [assumption|].
  apply String.eqb_eq in Hc. rewrite Hc. apply String.eqb_refl.
Qed.

(** X8.  Removing units none of which is associated does nothing at
    all: no statement is run and no timestamp is touched.  After a
    removal that succeeded the pairs are gone ([get] raises
    [DoesNotExist]) and removing them again does nothing, so
    [last_unit_removed] is not written a second time. *)
Theorem remove_units_absent_and_again
        (self : Repository) (units : list string) (w : World) :
  (filter (selected self units) (memberships (db w)) = [] ->
   remove_units self units w = (Ok tt, w))
  /\ (forall w1,
         remove_units self units w = (Ok tt, w1) ->
         remove_units self units w1 = (Ok tt, w1)
         /\ forall u, In u units -> get (uuid self) u w1 = Raise DoesNotExist).
Proof.
  split.
  - intros H. unfold remove_units. now rewrite H.
  - intros w1 H.
    assert (Hnone : filter (selected self units) (memberships (db w1)) = []).
    { unfold remove_units in H.
      destruct (filter (selected self units) (memberships (db w)))
        as [|m rows] eqn:F.
      - inversion H; subst. assumption.
      - destruct (send_post_delete (m :: rows) _) as [outcome w2] eqn:S.
        destruct outcome as [u|e]; [|discriminate].
        inversion H; subst w2.
        apply send_post_delete_ok in S as [_ [S _]]. simpl in S.
        rewrite S. apply filter_neg_then_pos. }
    split.
    + unfold remove_units. now rewrite Hnone.
    + intros u Hu. unfold get.
      now rewrite (pair_rows_are_selected self units u _ Hu Hnone).
Qed.

Lemma remove_units_absent_and_again_witness :
  remove_units demo ["u1"; "u2"] busy_world = (Ok tt, busy_world)
  /\ exists w1,
       remove_units other_repository ["u1"] busy_world = (Ok tt, w1)
       /\ remove_units other_repository ["u1"] w1 = (Ok tt, w1)
       /\ get "r2" "u1" w1 = Raise DoesNotExist.
Proof.
  split.
  - apply (proj1 (remove_units_absent_and_again demo ["u1"; "u2"] busy_world)).
    reflexivity.
  - eexists. split; [reflexivity|].
    destruct (proj2 (remove_units_absent_and_again other_repository ["u1"] busy_world)
                    _ eq_refl) as [H1 H2].
    split; [exact H1|]. apply H2. now left.
Defined.

Lemma find_stored_repository pk rows :
  existsb (is_repository pk) rows = true ->
  exists r, find (is_repository pk) rows = Some r /\ uuid r = pk.
Proof.
  induction rows as [|x rows IH]; simpl; [discriminate|].
  destruct (is_repository pk x) eqn:E.
  - intros _. exists x. split; [reflexivity|].
    unfold is_repository in E. now apply String.eqb_eq in E.
  - simpl. assumption.
Qed.

(** X9.  Adding a unit to a repository and removing it again gives back
    the join table there was; what stays of the two calls is the two
    timestamps in the row of the repository, [last_unit_added] read
    before the insert and [last_unit_removed] read after the delete, and
    the four statements in this order. *)
Theorem add_then_remove_units
        (self : Repository) (unit : string) (w : World) :
  existsb (is_repository (uuid self)) (repositories (db w)) = true ->
  existsb (String.eqb unit) (content_units (db w)) = true ->
  filter (is_pair (uuid self) unit) (memberships (db w)) = [] ->
  exists self1 w1 w2 m,
    add_units self [unit] w = (Ok tt, self1, w1)
    /\ remove_units self1 [unit] w1 = (Ok tt, w2)
    /\ memberships (db w2) = memberships (db w)
    /\ content_units (db w2) = content_units (db w)
    /\ repositories (db w2)
       = map (stamp_removed (uuid self) (clock w + 1 + 1 + 1))
             (map (stamp_added (uuid self) (clock w)) (repositories (db w)))
    /\ statements w2
       = statements w
         ++ [UpdateRepository (uuid self) ["last_unit_added"];
             InsertMembership (uuid self) unit;
             DeleteMemberships [m];
             UpdateRepository (uuid self) ["last_unit_removed"]].
Proof.
  intros Hrepo Hunit Habs.
  set (m := {| repository := uuid self; content_unit := unit;
               created := (clock w + 1)%Z; updated := (clock w + 1 + 1)%Z |}).
  set (stamped := map (stamp_added (uuid self) (clock w)) (repositories (db w))).
  assert (Hadd : add_units self [unit] w
                 = (Ok tt, with_last_unit_added self (Some (clock w)),
                    {| db := {| repositories := stamped;
                                content_units := content_units (db w);
                                memberships := memberships (db w) ++ [m] |};
                       clock := (clock w + 1 + 1 + 1)%Z;
                       statements :=
                         (statements w
                          ++ [UpdateRepository (uuid self) ["last_unit_added"]])
                         ++ [InsertMembership (uuid self) unit] |})).
  { unfold add_units, get_or_create, get. rewrite Habs.
    rewrite create_unfolded, Hrepo, Hunit, (absent_pair_not_found _ _ _ Habs).
    reflexivity. }
  rewrite Hadd. do 3 eexists. exists m. split; [reflexivity|].
  set (self1 := with_last_unit_added self (Some (clock w))).
  assert (Hm : selected self1 [unit] m = true).
  { rewrite selected_single. unfold is_pair. simpl. now rewrite !String.eqb_refl. }
  assert (Hold : filter (selected self1 [unit]) (memberships (db w)) = []).
  { rewrite (filter_ext _ (is_pair (uuid self) unit)); [assumption|].
    intros x. now rewrite selected_single. }
  assert (Hstored : existsb (is_repository (uuid self)) stamped = true).
  { unfold stamped. rewrite existsb_map_same; [assumption|].
    intros; apply is_repository_stamp_added. }
  destruct (find_stored_repository _ _ Hstored) as [r [Hfind Hr]].
  assert (Hrows : filter (selected self1 [unit]) (memberships (db w) ++ [m]) = [m]).
  { rewrite filter_app, Hold. simpl. now rewrite Hm. }
  assert (Hrest : filter (fun x => negb (selected self1 [unit] x))
                         (memberships (db w) ++ [m]) = memberships (db w)).
  { rewrite filter_app. simpl. rewrite Hm. simpl. rewrite app_nil_r.
    apply filter_all. intros x Hx.
    now rewrite (filter_nil_none _ _ Hold x Hx). }
  unfold remove_units. cbn [db memberships repositories content_units].
  rewrite Hrows, Hrest.
  unfold send_post_delete, units_deleted, run.
  cbn [db memberships repositories content_units].
  change (repository m) with (uuid self).
  rewrite Hfind, units_changed_delete.
  cbn [db memberships repositories content_units clock statements].
  rewrite Hr, Hstored.
  split; [reflexivity|].
  cbn [db memberships repositories content_units clock statements].
  repeat split. now rewrite <- !app_assoc.
Qed.

Lemma add_then_remove_units_witness :
  exists self1 w1 w2 m,
    add_units demo ["u2"] busy_world = (Ok tt, self1, w1)
    /\ remove_units self1 ["u2"] w1 = (Ok tt, w2)
    /\ memberships (db w2) = memberships (db busy_world)
    /\ content_units (db w2) = content_units (db busy_world)
    /\ repositories (db w2)
       = map (stamp_removed "r1" 203)
             (map (stamp_added "r1" 200) (repositories (db busy_world)))
    /\ statements w2
       = [UpdateRepository "r1" ["last_unit_added"];
          InsertMembership "r1" "u2";
          DeleteMemberships [m];
          UpdateRepository "r1" ["last_unit_removed"]].
Proof.
  apply (add_then_remove_units demo "u2" busy_world); reflexivity.
Defined.

(** X10.  [add_units] refuses what is not stored and stores nothing
    then: with no row for the repository the handler's update of the
    timestamp raises [DatabaseError] and no insert is tried; with no row
    for the unit the insert raises [IntegrityError] and the update of the
    timestamp is rolled back.  In both cases the instance of the
    repository keeps the timestamp the handler gave it. *)
Theorem add_units_refuses_unstored
        (self : Repository) (unit : string) (w : World) :
  filter (is_pair (uuid self) unit) (memberships (db w)) = [] ->
  (existsb (is_repository (uuid self)) (repositories (db w)) = false ->
   exists w',
     add_units self [unit] w
     = (Raise DatabaseError, with_last_unit_added self (Some (clock w)), w')
     /\ db w' = db w
     /\ statements w'
        = statements w ++ [UpdateRepository (uuid self) ["last_unit_added"];
                           Rollback])
  /\ (existsb (is_repository (uuid self)) (repositories (db w)) = true ->
      existsb (String.eqb unit) (content_units (db w)) = false ->
      exists w',
        add_units self [unit] w
        = (Raise IntegrityError, with_last_unit_added self (Some (clock w)), w')
        /\ db w' = db w
        /\ statements w'
           = statements w ++ [UpdateRepository (uuid self) ["last_unit_added"];
                              InsertMembership (uuid self) unit;
                              Rollback]).
Proof.
  intros Habs. split.
  - intros Hrepo. unfold add_units, get_or_create, get. rewrite Habs.
    rewrite create_unfolded, Hrepo. eexists. split; [reflexivity|].
    simpl. split; [reflexivity|]. now rewrite <- app_assoc.
  - intros Hrepo Hunit. unfold add_units, get_or_create.
    assert (G : get (uuid self) unit w = Raise DoesNotExist)
      by (unfold get; now rewrite Habs).
    rewrite G, create_unfolded, Hrepo, Hunit. simpl.
    rewrite (get_depends_on_db _ _ w) by reflexivity. rewrite G.
    eexists. split; [reflexivity|].
    simpl. split; [reflexivity|]. now rewrite <- !app_assoc.
Qed.

Lemma add_units_refuses_unstored_witness :
  (exists w',
      add_units {| uuid := "r9"; slug := "ghost"; display_name := "";
                   description := ""; last_unit_added := None;
                   last_unit_removed := None |} ["u1"] busy_world
      = (Raise DatabaseError,
         {| uuid := "r9"; slug := "ghost"; display_name := "";
            description := ""; last_unit_added := Some 200%Z;
            last_unit_removed := None |}, w')
      /\ db w' = db busy_world
      /\ statements w' = [UpdateRepository "r9" ["last_unit_added"]; Rollback])
  /\ (exists w',
         add_units demo ["u9"] busy_world
         = (Raise IntegrityError, with_last_unit_added demo (Some 200%Z), w')
         /\ db w' = db busy_world
         /\ statements w'
            = [UpdateRepository "r1" ["last_unit_added"];
               InsertMembership "r1" "u9"; Rollback]).
Proof.
  split.
  - apply (proj1 (add_units_refuses_unstored
                    {| uuid := "r9"; slug := "ghost"; display_name := "";
                       description := ""; last_unit_added := None;
                       last_unit_removed := None |} "u1" busy_world eq_refl)).
    reflexivity.
  - apply (proj2 (add_units_refuses_unstored demo "u9" busy_world eq_refl));
      reflexivity.
Defined.

(** X19.  The two ways in agree: [unit.add_repos(repo)] does what
    [repo.add_units(unit)] does, and [unit.remove_repos(repo)] what
    [repo.remove_units(unit)] does: same outcome, same instance of the
    repository, same tables, clock and statements. *)
Theorem add_repos_is_add_units (unit : string) (repo : Repository) (w : World) :
  add_repos unit [repo] w
  = (let '(outcome, repo', w') := add_units repo [unit] w in
     (outcome, [repo'], w'))
  /\ remove_repos unit [repo] w = remove_units repo [unit] w.
Proof.
  split.
  - simpl. destruct (get_or_create repo unit w) as [[outcome repo'] w'].
    now destruct outcome.
  - assert (Hsel : forall m, selected_for_unit unit [repo] m
                             = selected repo [unit] m).
    { intros m. unfold selected_for_unit, selected. simpl.
      now rewrite !orb_false_r. }
    unfold remove_repos, remove_units.
    rewrite (filter_ext _ _ Hsel).
    rewrite (filter_ext (fun m => negb (selected_for_unit unit [repo] m))
                        (fun m => negb (selected repo [unit] m)));
      [reflexivity|].
    intros m. now rewrite Hsel.
Qed.

End MembershipMoreFacts.

(** ** Content units: digests, save and cast together *)

Section IdentityMoreFacts.
Import Hashlib Identity.

Variable digest_hex : string -> list byte -> string.
Variable subclasses : list ModelClass.
Variable class_attr : ContentUnit -> string -> option pyobj.
Variable unit_str : ContentUnit -> string.
Variable namedtuple_accepts : list string -> bool.

Local Abbreviation cast := (cast subclasses class_attr).
Local Abbreviation getattr := (getattr subclasses class_attr).
Local Abbreviation key_dict := (key_dict subclasses class_attr namedtuple_accepts).
Local Abbreviation hash_key :=
  (hash_key digest_hex subclasses class_attr unit_str namedtuple_accepts).
Local Abbreviation save :=
  (save digest_hex subclasses class_attr unit_str namedtuple_accepts).

(** X11.  A hasher handed to [hash_key] is used as it is: the digest is
    that of its algorithm, over the bytes it was already fed followed by
    the bytes of the key; and when [key_dict] raises, [hash_key] raises
    the same. *)
Theorem hash_key_with_given_hasher
        (db : Database) (self : ContentUnit) (h : hasher) :
  match key_dict db self with
  | Ok items =>
      hash_key db self (Some h)
      = Ok (digest_hex (Hashlib.algorithm h)
              (fed h ++ encode_utf8 (join_all (map (key_item_text unit_str) items))))
  | Raise e =>
      hash_key db self (Some h) = Raise e /\ hash_key db self None = Raise e
  end.
Proof.
  unfold Identity.hash_key.
  destruct (key_dict db self) as [items|e]; simpl; [|auto].
  unfold key_item_bytes. rewrite fold_update. unfold hexdigest. simpl.
  now rewrite encode_utf8_join, map_map.
Qed.

(** X12.  The digest does not tell names from values nor one item from
    the next: two units whose key items, written one after the other,
    give the same text have the same key digest, also when their key
    mappings differ. *)
Theorem hash_key_runs_items_together
        (dbA dbB : Database) (A B : ContentUnit)
        (itemsA itemsB : list (string * pyobj)) :
  key_dict dbA A = Ok itemsA ->
  key_dict dbB B = Ok itemsB ->
  join_all (map (key_item_text unit_str) itemsA)
  = join_all (map (key_item_text unit_str) itemsB) ->
  hash_key dbA A None = hash_key dbB B None.
Proof.
  intros HA HB Heq.
  rewrite (hash_key_value _ _ _ _ _ _ _ _ HA), (hash_key_value _ _ _ _ _ _ _ _ HB).
  now rewrite Heq.
Qed.

Lemma find_app_none {A} (p : A -> bool) (l : list A) (x : A) :
  existsb p l = false -> p x = true -> find p (l ++ [x]) = Some x.
Proof.
  induction l as [|y l IH]; simpl; intros He Hx.
  - now rewrite Hx.
  - apply orb_false_iff in He as [Hy He]. rewrite Hy. now apply IH.
Qed.

Lemma find_map_replace {A} (p : A -> bool) (x : A) (l : list A) :
  existsb p l = true -> p x = true ->
  find p (map (fun y => if p y then x else y) l) = Some x.
Proof.
  induction l as [|y l IH]; simpl; intros He Hx; [discriminate|].
  destruct (p y) eqn:E.
  - now rewrite Hx.
  - rewrite E. simpl in He. now apply IH.
Qed.

(** After an upsert the row found under the primary key is the row of
    the instance. *)
Lemma find_upsert_base self rows :
  find (fun r => row_uuid r =? uuid self) (upsert_base self rows)
  = Some (base_row_of self).
Proof.
  unfold upsert_base.
  destruct (existsb (fun r => row_uuid r =? uuid self) rows) eqn:E.
  - apply (find_map_replace (fun r => row_uuid r =? uuid self)); [assumption|].
    simpl. apply String.eqb_refl.
  - apply find_app_none; [assumption|]. simpl. apply String.eqb_refl.
Qed.


Lemma upsert_base_keeps_others self rows b :
  In b rows -> row_uuid b <> uuid self -> In b (upsert_base self rows).
Proof.
  intros Hin Hne. unfold upsert_base.
  destruct (existsb _ rows).
  - apply in_map_iff. exists b. split; [|assumption].
    apply String.eqb_neq in Hne. now rewrite Hne.
  - apply in_or_app. now left.
Qed.

(** X13.  Saving a typed unit whose key digest is already stored for
    another unit raises [IntegrityError]; the instance keeps the digest
    it was given.  When no other unit has the digest, the save succeeds,
    the row then found under the primary key of the unit carries its
    discriminator and its digest, and the rows of the other units are
    kept. *)
Theorem save_unique_key_digest (db : Database) (self : ContentUnit) (d : string) :
  content_type self <> "" ->
  hash_key db self None = Ok d ->
  ((exists b, In b (contentunit_rows db)
              /\ row_key_digest b = d /\ row_uuid b <> uuid self) ->
   save self db = (Raise IntegrityError, with_key_digest self d))
  /\ ((forall b, In b (contentunit_rows db) ->
                 row_key_digest b = d -> row_uuid b = uuid self) ->
      exists db',
        save self db = (Ok db', with_key_digest self d)
        /\ find (fun r => row_uuid r =? uuid self) (contentunit_rows db')
           = Some {| row_uuid := uuid self;
                     row_content_type := content_type self;
                     row_key_digest := d |}
        /\ forall b, In b (contentunit_rows db) -> row_uuid b <> uuid self ->
                     In b (contentunit_rows db')).
Proof.
  intros Hct Hh.
  assert (Hs : save self db
               = (Model_save (with_key_digest self d) db, with_key_digest self d)).
  { unfold Identity.save. apply String.eqb_neq in Hct. rewrite Hct.
    cbv beta iota zeta. now rewrite Hh. }
  rewrite Hs. unfold Model_save. split.
  - intros [b [Hin [Hd Hu]]].
    assert (Ht : digest_taken (with_key_digest self d) (contentunit_rows db) = true).
    { apply existsb_exists. exists b. split; [assumption|]. simpl.
      rewrite Hd, String.eqb_refl. simpl.
      apply String.eqb_neq in Hu. now rewrite Hu. }
    now rewrite Ht.
  - intros Hfree.
    assert (Ht : digest_taken (with_key_digest self d) (contentunit_rows db) = false).
    { destruct (digest_taken _ _) eqn:E; [|reflexivity].
      apply existsb_exists in E as [b [Hin Hb]]. simpl in Hb.
      apply andb_true_iff in Hb as [Hb1 Hb2].
      apply String.eqb_eq in Hb1.
      rewrite (Hfree b Hin Hb1), String.eqb_refl in Hb2. discriminate. }
    rewrite Ht. eexists. split; [reflexivity|]. simpl. split.
    + apply (find_upsert_base (with_key_digest self d)).
    + intros b Hin Hne.
      now apply (upsert_base_keeps_others (with_key_digest self d)).
Qed.


(** X15.  Whatever [cast] returns as a unit has the primary key of the
    record; it is the record itself, or an instance of an installed
    subclass whose name is the discriminator of the record.  (The
    attributes that neither the model nor a subclass define are taken to
    hold no unit.) *)
Theorem cast_keeps_primary_key (db : Database) (self obj : ContentUnit) :
  class_attr self (content_type self) = None ->
  cast db self = Ok (Unit obj) ->
  uuid obj = uuid self
  /\ (obj = self
      \/ (In (class_of obj) subclasses
          /\ model_name (class_of obj) = content_type self)).
Proof.
  intros Hattr. unfold Identity.cast.
  destruct (_get_content_type self =? content_type self).
  { intros H; inversion H; auto. }
  unfold Identity.getattr. rewrite Hattr.
  destruct ((content_type self =? "pk") || (content_type self =? "uuid"));
    [discriminate|].
  destruct (content_type self =? "content_type"); [discriminate|].
  destruct (content_type self =? "key_digest"); [discriminate|].
  destruct (assoc (content_type self) (detail self)); [discriminate|].
  destruct (find _ subclasses) as [c|] eqn:F.
  - apply find_some in F as [Hin Hc]. apply String.eqb_eq in Hc.
    unfold related_object.
    destruct (find _ (detail_rows db (model_name c))) as [dr|];
      [|intros H; inversion H; auto].
    destruct (find _ (contentunit_rows db)) as [b|] eqn:Fb;
      [|intros H; inversion H; auto].
    apply find_some in Fb as [_ Fb]. apply String.eqb_eq in Fb.
    intros H; inversion H; subst obj. simpl. auto.
  - intros H; inversion H; auto.
Qed.

End IdentityMoreFacts.

Section IdentityMoreExamples.
Import Hashlib Identity.

Lemma hash_key_runs_items_together_witness :
  key_dict [iso_class; img_class] no_class_attr accept_all empty_db iso_unit
  <> key_dict [iso_class; img_class] no_class_attr accept_all empty_db img_unit
  /\ hash_key toy_digest [iso_class; img_class] no_class_attr uuid_str accept_all
              empty_db iso_unit None
     = hash_key toy_digest [iso_class; img_class] no_class_attr uuid_str accept_all
                empty_db img_unit None.
Proof.
  split; [discriminate|].
  apply (hash_key_runs_items_together toy_digest [iso_class; img_class]
           no_class_attr uuid_str accept_all empty_db empty_db iso_unit img_unit
           [("name", Val (VStr "x1"))] [("namex", Val (VStr "1"))]);
    reflexivity.
Defined.

Lemma save_unique_key_digest_witness :
  save toy_digest installed no_class_attr uuid_str accept_all rpm_unit taken_db
  = (Raise IntegrityError, with_key_digest rpm_unit "sha256:namepkgAversion1")
  /\ exists db',
       save toy_digest installed no_class_attr uuid_str accept_all rpm_unit empty_db
       = (Ok db', with_key_digest rpm_unit "sha256:namepkgAversion1").
Proof.
  split.
  - apply (proj1 (save_unique_key_digest toy_digest installed no_class_attr
                    uuid_str accept_all taken_db rpm_unit
                    "sha256:namepkgAversion1" ltac:(discriminate) eq_refl)).
    eexists. split; [now left|]. split; [reflexivity | discriminate].
  - destruct (proj2 (save_unique_key_digest toy_digest installed no_class_attr
                       uuid_str accept_all empty_db rpm_unit
                       "sha256:namepkgAversion1" ltac:(discriminate) eq_refl))
      as [db' [H _]].
    + intros b [].
    + exists db'. exact H.
Defined.


Lemma cast_keeps_primary_key_witness :
  uuid {| class_of := rpm_class; uuid := "u-old"; content_type := "rpm";
          key_digest := "sha256:namepkgAversion1";
          detail := [("name", VStr "pkgA"); ("version", VStr "1")] |}
  = "u-old".
Proof.
  apply (cast_keeps_primary_key installed no_class_attr taken_db
           {| class_of := ContentUnit_class; uuid := "u-old";
              content_type := "rpm"; key_digest := "sha256:namepkgAversion1";
              detail := [] |}
           {| class_of := rpm_class; uuid := "u-old"; content_type := "rpm";
              key_digest := "sha256:namepkgAversion1";
              detail := [("name", VStr "pkgA"); ("version", VStr "1")] |}
           eq_refl eq_refl).
Defined.

End IdentityMoreExamples.

(** ** Files: bytes, the digests mapping, the best checksum after a save *)

Section FilesMoreFacts.
Import Hashlib Files.

Lemma readlines_bytes_nonempty (data : list byte) :
  data <> [] -> exists b ls, readlines_bytes data = b :: ls.
Proof.
  destruct data as [|c rest]; [congruence|]. intros _. simpl.
  destruct (Byte.eqb c x0a); [eauto|].
  destruct (readlines_bytes rest); eauto.
Qed.

(** X16.  A named file that yields bytes cannot be saved unless it is
    empty: with at least one byte the first line has no [encode], the
    call raises [AttributeError] and sets nothing; with no byte at all
    there is no line, every hash field gets the digest of the empty
    input and the row is handed to the parent [save]. *)
Theorem save_bytes_content
        (digest_hex : string -> list byte -> string) (Store : Type)
        (super_save : ContentUnitFile -> Store -> except Store)
        (self : ContentUnitFile) (st : Store) (data : list byte) :
  content_truthy (content self) = true ->
  file (content self) = ByteStream data ->
  (data <> [] ->
   save digest_hex Store super_save self st = (Raise AttributeError, self))
  /\ (data = [] ->
      exists self',
        save digest_hex Store super_save self st = (super_save self' st, self')
        /\ (forall algo, In algo _hash_field_generator ->
              get_hash_field self' algo = Some (digest_hex algo []))
        /\ file_size self' = Some (size (content self))).
Proof.
  intros Ht Hf. unfold save. rewrite Ht. unfold readlines. rewrite Hf. split.
  - intros Hne. destruct (readlines_bytes_nonempty data Hne) as [b [ls ->]].
    simpl map. now rewrite feed_lines_bytes.
  - intros ->. cbn [readlines_bytes map feed_lines].
    eexists. split; [reflexivity|]. split; [|reflexivity].
    intros algo Hin. rewrite hash_fields_are in Hin. simpl in Hin.
    decompose [or] Hin; subst; try contradiction; reflexivity.
Qed.

Lemma save_bytes_content_witness :
  save toy_digest _ accept_row binary_file [] = (Raise AttributeError, binary_file)
  /\ exists self',
       save toy_digest _ accept_row empty_binary_file []
       = (accept_row self' [], self')
       /\ (forall algo, In algo _hash_field_generator ->
             get_hash_field self' algo = Some (toy_digest algo []))
       /\ file_size self' = Some 0%Z.
Proof.
  split.
  - apply (proj1 (save_bytes_content toy_digest _ accept_row binary_file []
                    [x61; x0a; xff] eq_refl eq_refl)).
    discriminate.
  - apply (proj2 (save_bytes_content toy_digest _ accept_row empty_binary_file []
                    [] eq_refl eq_refl)).
    reflexivity.
Defined.

Lemma dict_set_fresh k v d :
  ~ In k (map fst d) -> dict_set k v d = d ++ [(k, v)].
Proof.
  induction d as [|[k' v'] d IH]; simpl; intros H; [reflexivity|].
  destruct (k' =? k) eqn:E.
  - apply String.eqb_eq in E. exfalso. apply H. now left.
  - rewrite IH; [reflexivity|]. intros Hin. apply H. now right.
Qed.

Lemma dict_of_distinct_from acc pairs :
  NoDup (map fst (acc ++ pairs)) ->
  fold_left (fun d kv => dict_set (fst kv) (snd kv) d) pairs acc = acc ++ pairs.
Proof.
  revert acc. induction pairs as [|[k v] pairs IH]; intros acc Hnd; simpl.
  - now rewrite app_nil_r.
  - rewrite dict_set_fresh.
    + rewrite IH; rewrite <- app_assoc; [reflexivity | exact Hnd].
    + rewrite map_app in Hnd. simpl in Hnd.
      apply NoDup_remove_2 in Hnd. intros Hin. apply Hnd.
      apply in_or_app. now left.
Qed.

Lemma dict_get_distinct k v d :
  NoDup (map fst d) -> (dict_get k d = Some v <-> In (k, v) d).
Proof.
  induction d as [|[k' v'] d IH]; simpl; intros Hnd.
  - split; [discriminate | contradiction].
  - inversion Hnd as [|? ? Hnot Hnd']; subst.
    destruct (k' =? k) eqn:E.
    + apply String.eqb_eq in E. subst k'. split.
      * intros H; inversion H; now left.
      * intros [H | H]; [now inversion H|].
        exfalso. apply Hnot. apply in_map_iff. now exists (k, v).
    + apply String.eqb_neq in E. rewrite (IH Hnd'). split.
      * now right.
      * intros [H | H]; [inversion H; congruence | assumption].
Qed.

Lemma digests_of_names_distinct self fields :
  NoDup fields -> NoDup (map algorithm (digests_of self fields)).
Proof.
  induction fields as [|f fields IH]; simpl; intros Hnd; [constructor|].
  inversion Hnd as [|? ? Hnot Hnd']; subst.
  destruct (get_hash_field self f) as [v|]; [|auto].
  simpl. destruct (negb (v =? "")); [|auto].
  simpl. constructor; [|auto].
  intros Hin. apply in_map_iff in Hin as [c [Hc Hin]].
  apply digests_of_spec in Hin as [Hin _]. rewrite Hc in Hin. contradiction.
Qed.

(** X17.  The mapping [digests] has an entry for an algorithm exactly
    when the hash field of that name holds a non-empty digest, and the
    entry is that digest: no algorithm is listed twice, so building the
    dictionary loses nothing of what the generator yields. *)
Theorem digests_lookup (self : ContentUnitFile) (algo d : string) :
  (dict_get algo (digests self) = Some d <->
   In algo ["md5"; "sha1"; "sha224"; "sha256"; "sha384"; "sha512"]
   /\ get_hash_field self algo = Some d
   /\ d <> "")
  /\ digests self
     = map (fun c => (algorithm c, digest c)) (_digest_generator self).
Proof.
  assert (Hnd : NoDup (map fst (map (fun c => (algorithm c, digest c))
                                  (_digest_generator self)))).
  { rewrite map_map. simpl. apply digests_of_names_distinct.
    rewrite hash_fields_are. repeat constructor; simpl; intuition discriminate. }
  assert (Heq : digests self
                = map (fun c => (algorithm c, digest c)) (_digest_generator self)).
  { unfold digests, dict_of. now rewrite dict_of_distinct_from. }
  split; [|exact Heq].
  rewrite Heq, (dict_get_distinct _ _ _ Hnd). rewrite in_map_iff. split.
  - intros [c [Hc Hin]]. inversion Hc; subst.
    unfold _digest_generator in Hin. apply digests_of_spec in Hin.
    now rewrite hash_fields_are in Hin.
  - intros H. exists {| algorithm := algo; digest := d |}. split; [reflexivity|].
    unfold _digest_generator. apply digests_of_spec.
    now rewrite hash_fields_are.
Qed.






End FilesMoreFacts.

(** ** The descriptor of the key tuple types *)

Section DescriptorFacts.
Import Descriptor.

Variable namedtuple_accepts : string -> list string -> bool.

Local Abbreviation get := (__get__ namedtuple_accepts).

(** X20.  Once [__get__] has answered for a class, it answers the same
    type for that class ever after, whatever the instance it is asked
    through, and without changing the descriptor: the attribute is read
    only the first time.  The first answer is named after the class and
    has the fields read then; the types cached for other classes are
    kept; and a call that raises leaves the descriptor as it was. *)
Theorem get_caches_by_class
        (self self1 : NamedTupleDescriptor)
        (obj_attr : string -> except (list string)) (cls : PyClass)
        (outcome : except NamedTupleType) :
  get self obj_attr cls = (outcome, self1) ->
  match outcome with
  | Ok t =>
      (forall obj_attr', get self1 obj_attr' cls = (Ok t, self1))
      /\ (forall c t', lookup c (cache self) = Some t' ->
                       lookup c (cache self1) = Some t')
      /\ (lookup (class_id cls) (cache self) = None ->
          typename t = (__name__ cls ++ name self)%string
          /\ obj_attr (classattr self) = Ok (fields t))
      /\ classattr self1 = classattr self /\ name self1 = name self
  | Raise _ => self1 = self
  end.
Proof.
  unfold Descriptor.__get__.
  destruct (lookup (class_id cls) (cache self)) as [t0|] eqn:L.
  - intros H; inversion H; subst.
    split; [intros obj'; now rewrite L|].
    split; [auto|]. split; [intros Hn; rewrite Hn in L; discriminate | auto].
  - destruct (obj_attr (classattr self)) as [value|e] eqn:A.
    + destruct (namedtuple_accepts _ value).
      * intros H; inversion H; subst. simpl.
        split; [intros obj'; now rewrite Nat.eqb_refl|].
        split; [|auto].
        intros c t' Hc. destruct (class_id cls =? c)%nat eqn:E; [|assumption].
        apply Nat.eqb_eq in E. subst c. congruence.
      * intros H; inversion H; subst. reflexivity.
    + intros H; inversion H; subst. reflexivity.
Qed.

End DescriptorFacts.

Section DescriptorExamples.
Import Descriptor.

Lemma get_caches_by_class_witness :
  exists t self1,
    __get__ accepts_any KEY_TUPLE attr_name_version rpm_cls = (Ok t, self1)
    /\ t = {| typename := "RPMKeyTuple"; fields := ["name"; "version"] |}
    /\ __get__ accepts_any self1 attr_missing rpm_cls = (Ok t, self1).
Proof.
  eexists. eexists. split; [reflexivity|]. split; [reflexivity|].
  apply (get_caches_by_class accepts_any KEY_TUPLE _ attr_name_version rpm_cls
           (Ok _) eq_refl).
Defined.

End DescriptorExamples.

(** ** Counting the units of a repository by type *)

Section CountsFacts.
Import Counts.

Lemma count_up_count_of k k' d :
  count_of k (count_up k' d)
  = if k' =? k then Some (S (total k d)) else count_of k d.
Proof.
  unfold total. induction d as [|[k0 n] d IH]; simpl.
  - destruct (k' =? k); reflexivity.
  - destruct (k0 =? k') eqn:E0; simpl.
    + apply String.eqb_eq in E0. subst k0.
      destruct (k' =? k); reflexivity.
    + destruct (k0 =? k) eqn:E1.
      * apply String.eqb_eq in E1. subst k0. now rewrite String.eqb_sym, E0.
      * exact IH.
Qed.

Lemma count_up_keys k d :
  NoDup (map fst d) -> NoDup (map fst (count_up k d))
  /\ forall x, In x (map fst (count_up k d)) <-> x = k \/ In x (map fst d).
Proof.
  induction d as [|[k0 n] d IH]; simpl; intros Hnd.
  - split; [repeat constructor; auto | intuition].
  - inversion Hnd as [|? ? Hnot Hnd']; subst.
    destruct (k0 =? k) eqn:E; simpl.
    + apply String.eqb_eq in E. subst k0. split; [assumption | intuition].
    + destruct (IH Hnd') as [H1 H2]. split.
      * constructor; [|assumption]. rewrite H2. intros [-> | Hin].
        -- rewrite String.eqb_refl in E. discriminate.
        -- contradiction.
      * intros x. rewrite H2. intuition.
Qed.

Lemma count_up_sum k d :
  list_sum (map snd (count_up k d)) = S (list_sum (map snd d)).
Proof.
  induction d as [|[k0 n] d IH]; simpl; [reflexivity|].
  destruct (k0 =? k); simpl; [reflexivity|]. rewrite IH. lia.
Qed.

Lemma group_count_from acc types k :
  NoDup (map fst acc) ->
  let d := fold_left (fun d k => count_up k d) types acc in
  NoDup (map fst d)
  /\ total k d = total k acc + occurrences k types
  /\ list_sum (map snd d) = list_sum (map snd acc) + List.length types.
Proof.
  revert acc. induction types as [|t types IH]; intros acc Hnd; simpl.
  - unfold occurrences. simpl. repeat split; auto; lia.
  - destruct (count_up_keys t acc Hnd) as [Hnd' _].
    destruct (IH (count_up t acc) Hnd') as [H1 [H2 H3]].
    split; [assumption|]. split.
    + assert (Ht : total k (count_up t acc)
                   = total k acc + (if t =? k then 1 else 0)).
      { unfold total at 1. rewrite count_up_count_of.
        destruct (t =? k); [lia|]. unfold total. lia. }
      rewrite H2, Ht. unfold occurrences. simpl. rewrite (String.eqb_sym k t).
      destruct (t =? k); simpl; lia.
    + rewrite H3, count_up_sum. lia.
Qed.

Lemma total_positive (acc : list (string * nat)) :
  (forall x n, count_of x acc = Some n -> 0 < n) ->
  forall types x n,
    count_of x (fold_left (fun d k => count_up k d) types acc) = Some n -> 0 < n.
Proof.
  intros Hacc types. revert acc Hacc.
  induction types as [|t types IH]; intros acc Hacc x n; simpl; [apply Hacc|].
  apply IH. intros y m. rewrite count_up_count_of.
  destruct (t =? y); [intros H; inversion H; lia | apply Hacc].
Qed.

(** X21.  [content_unit_counts] lists each content type once; the count
    of a type is the number of units of that type that the repository
    is joined to, a type with no such unit is not listed (no entry is
    zero), and the counts add up to the number of joined units. *)
Theorem content_unit_counts_by_type
        (self : Membership.Repository) (units : list Identity.BaseRow)
        (memberships : list Membership.RepositoryContentUnit) (k : string) :
  let counts := content_unit_counts self units memberships in
  let types := member_types self units memberships in
  NoDup (map fst counts)
  /\ count_of k counts
     = (if (occurrences k types =? 0)%nat then None
        else Some (occurrences k types))
  /\ list_sum (map snd counts) = List.length types.
Proof.
  intros counts types. subst counts. unfold content_unit_counts. fold types.
  destruct (group_count_from [] types k (NoDup_nil _)) as [H1 [H2 H3]].
  fold (group_count types) in H1, H2, H3.
  split; [assumption|]. split; [|exact H3].
  unfold total in H2. simpl in H2.
  destruct (count_of k (group_count types)) as [n|] eqn:C.
  - assert (Hp : 0 < n).
    { apply (total_positive [] (fun x n H => ltac:(discriminate)) types k n).
      exact C. }
    rewrite <- H2. destruct n; [lia | reflexivity].
  - now rewrite <- H2.
Qed.

(** When the primary keys of the units are distinct and every row of the
    join table points to a stored unit, the joined units of a repository
    are as many as its rows in the join table. *)
Lemma member_types_length self units memberships :
  NoDup (map Identity.row_uuid units) ->
  (forall m, In m memberships ->
             In (Membership.content_unit m) (map Identity.row_uuid units)) ->
  List.length (member_types self units memberships)
  = List.length (filter (fun m => Membership.repository m =? Membership.uuid self)
                        memberships).
Proof.
  intros Hnd Hfk. unfold member_types.
  induction memberships as [|m ms IH]; simpl; [reflexivity|].
  rewrite length_app, IH by (intros; apply Hfk; now right).
  destruct (Membership.repository m =? Membership.uuid self); simpl; [|reflexivity].
  rewrite length_map. f_equal.
  specialize (Hfk m (or_introl eq_refl)).
  clear IH. induction units as [|b units IHu]; simpl in *; [contradiction|].
  inversion Hnd as [|? ? Hnot Hnd']; subst.
  destruct (Identity.row_uuid b =? Membership.content_unit m) eqn:E.
  - simpl. f_equal. apply String.eqb_eq in E.
    assert (Hnone : forall l, ~ In (Membership.content_unit m)
                                   (map Identity.row_uuid l) ->
                    filter (fun b0 => Identity.row_uuid b0
                                      =? Membership.content_unit m) l = []).
    { intros l. induction l as [|x l IHl]; simpl; intros Hn; [reflexivity|].
      destruct (Identity.row_uuid x =? Membership.content_unit m) eqn:Ex.
      - apply String.eqb_eq in Ex. exfalso. apply Hn. now left.
      - apply IHl. intros Hin. apply Hn. now right. }
    rewrite Hnone; [reflexivity|]. now rewrite <- E.
  - apply IHu; [assumption|].
    destruct Hfk as [Hb | Hin]; [|assumption].
    rewrite Hb, String.eqb_refl in E. discriminate.
Qed.

(** X22.  With distinct primary keys of the units and every row of the
    join table pointing to a stored unit, the counts of
    [content_unit_counts] add up to the number of rows the repository has
    in the join table. *)
Theorem content_unit_counts_total
        (self : Membership.Repository) (units : list Identity.BaseRow)
        (memberships : list Membership.RepositoryContentUnit) :
  NoDup (map Identity.row_uuid units) ->
  (forall m, In m memberships ->
             In (Membership.content_unit m) (map Identity.row_uuid units)) ->
  list_sum (map snd (content_unit_counts self units memberships))
  = List.length (filter (fun m => Membership.repository m =? Membership.uuid self)
                        memberships).
Proof.
  intros Hnd Hfk. rewrite <- (member_types_length self units memberships Hnd Hfk).
  unfold content_unit_counts, group_count.
  destruct (group_count_from [] (member_types self units memberships) ""
              (NoDup_nil _)) as [_ [_ H3]].
  exact H3.
Qed.

Lemma content_unit_counts_total_witness :
  content_unit_counts Membership.demo stored_units stored_memberships
  = [("rpm", 2); ("deb", 1)]
  /\ list_sum (map snd (content_unit_counts Membership.demo stored_units
                                            stored_memberships)) = 3.
Proof.
  split; [reflexivity|].
  apply (content_unit_counts_total Membership.demo stored_units stored_memberships).
  - simpl. repeat constructor; simpl; intuition discriminate.
  - intros m Hm. simpl in Hm. decompose [or] Hm; subst; simpl; tauto.
Defined.

End CountsFacts.
